(** * Single-decree Paxos nodes of paxos.py: a shallow embedding

    The development follows src/paxos.py.  A [PaxosNode] is a record of the
    proposer, acceptor and learner fields of the Python class; every handler
    is a function from the node state and the message to the new node state
    and the list of calls it makes on the [Network] ([send_message] or
    [broadcast]).  The network is the dictionary of registered nodes, kept
    in insertion order, and the messages it has been handed and not yet
    passed to [receive_message].

    Python integers are unbounded, so ids are [Z]; [None] is [option]'s
    [None]; proposal values are the strings the menu reads, or [None]; the
    dictionaries of the learner are [gmap]s and its sets of sender ids are
    [gset]s. *)

From stdpp Require Import gmap strings list fin_maps.
From Stdlib Require Import ZArith Lia.

Open Scope Z_scope.

(** ** Messages (paxos.py, lines 10-25) *)

Inductive MessageType : Type :=
  | PREPARE
  | PROMISE
  | ACCEPT
  | ACCEPTED.

#[global] Instance MessageType_eq_dec : EqDecision MessageType.
Proof. solve_decision. Defined.

Module Message.
Record t : Type := mk {
  msg_type : MessageType;
  proposal_id : Z;
  sender_id : string;
  receiver_id : string;
  value : option string;
  accepted_proposal_id : option Z;
  accepted_value : option string
}.
End Message.

#[global] Instance Message_eq_dec : EqDecision Message.t.
Proof. solve_decision. Defined.

(** ** Calls a handler makes on the network

    [SendMessage m] is [self.network.send_message(m)];
    [Broadcast m exclude] is [self.network.broadcast(m, exclude=...)]. *)

Inductive NetCall : Type :=
  | SendMessage (m : Message.t)
  | Broadcast (m : Message.t) (exclude : option string).

(** ** Node state (PaxosNode.__init__, lines 66-84) *)

Record PaxosNode : Type := mkNode {
  node_id : string;
  (* proposer *)
  proposal_id : Z;
  current_proposal_value : option string;
  promises_received : gset string;
  highest_accepted_id : Z;
  highest_accepted_value : option string;
  (* acceptor *)
  promised_proposal_id : Z;
  accepted_proposal_id : Z;
  accepted_value : option string;
  (* learner *)
  learned_values : gmap Z (option string);
  accept_counts : gmap Z (gmap (option string) (gset string))
}.

Definition new_node (nid : string) : PaxosNode :=
  {| node_id := nid;
     proposal_id := 0;
     current_proposal_value := None;
     promises_received := ∅;
     highest_accepted_id := -1;
     highest_accepted_value := None;
     promised_proposal_id := -1;
     accepted_proposal_id := -1;
     accepted_value := None;
     learned_values := ∅;
     accept_counts := ∅ |}.

(** [len(self.network.nodes) // 2 + 1], the local [majority_threshold] of
    lines 148 and 220; [n] is the number of registered nodes. *)
Definition majority_threshold (n : nat) : nat := (n / 2 + 1)%nat.

(** ** propose (lines 86-106)

    [now] is the value of [int(time.time() * 1000000)] read at the call. *)
Definition propose (now : Z) (value : option string) (nd : PaxosNode)
  : PaxosNode * list NetCall :=
  let nd' :=
    {| node_id := node_id nd;
       proposal_id := now;
       current_proposal_value := value;
       promises_received := ∅;
       highest_accepted_id := -1;
       highest_accepted_value := None;
       promised_proposal_id := promised_proposal_id nd;
       accepted_proposal_id := accepted_proposal_id nd;
       accepted_value := accepted_value nd;
       learned_values := learned_values nd;
       accept_counts := accept_counts nd |} in
  let prepare_msg :=
    Message.mk PREPARE now (node_id nd) "broadcast" None None None in
  (nd', [Broadcast prepare_msg (Some (node_id nd))]).

(** ** ReceiveProposeSendPromise (lines 108-129) *)
Definition ReceiveProposeSendPromise (message : Message.t) (nd : PaxosNode)
  : PaxosNode * list NetCall :=
  if bool_decide (Message.proposal_id message > promised_proposal_id nd) then
    let nd' :=
      {| node_id := node_id nd;
         proposal_id := proposal_id nd;
         current_proposal_value := current_proposal_value nd;
         promises_received := promises_received nd;
         highest_accepted_id := highest_accepted_id nd;
         highest_accepted_value := highest_accepted_value nd;
         promised_proposal_id := Message.proposal_id message;
         accepted_proposal_id := accepted_proposal_id nd;
         accepted_value := accepted_value nd;
         learned_values := learned_values nd;
         accept_counts := accept_counts nd |} in
    let promise_msg :=
      Message.mk PROMISE (Message.proposal_id message) (node_id nd)
        (Message.sender_id message) None
        (if bool_decide (accepted_proposal_id nd ≠ -1)
         then Some (accepted_proposal_id nd) else None)
        (accepted_value nd) in
    (nd', [SendMessage promise_msg])
  else (nd, []).

(** ** ReceivePromiseSendAccept (lines 131-174) *)

(** Lines 139-145: the highest accepted pair seen so far. *)
Definition note_accepted (message : Message.t) (hid : Z) (hval : option string)
  : Z * option string :=
  match Message.accepted_proposal_id message, Message.accepted_value message with
  | Some aid, Some aval =>
      if bool_decide (aid > hid) then (aid, Some aval) else (hid, hval)
  | _, _ => (hid, hval)
  end.

(** Lines 152-160: the value of the ACCEPT message. *)
Definition value_to_accept (hval own : option string) : option string :=
  match hval with
  | Some v => Some v
  | None => own
  end.

Definition ReceivePromiseSendAccept (n : nat) (message : Message.t)
    (nd : PaxosNode) : PaxosNode * list NetCall :=
  if bool_decide (Message.proposal_id message = proposal_id nd) then
    let promises : gset string :=
      promises_received nd ∪ {[Message.sender_id message]} in
    let '(hid, hval) :=
      note_accepted message (highest_accepted_id nd) (highest_accepted_value nd) in
    let with_promises (ps : gset string) :=
      {| node_id := node_id nd;
         proposal_id := proposal_id nd;
         current_proposal_value := current_proposal_value nd;
         promises_received := ps;
         highest_accepted_id := hid;
         highest_accepted_value := hval;
         promised_proposal_id := promised_proposal_id nd;
         accepted_proposal_id := accepted_proposal_id nd;
         accepted_value := accepted_value nd;
         learned_values := learned_values nd;
         accept_counts := accept_counts nd |} in
    if bool_decide (majority_threshold n ≤ size promises)%nat then
      let accept_msg :=
        Message.mk ACCEPT (proposal_id nd) (node_id nd) "broadcast"
          (value_to_accept hval (current_proposal_value nd)) None None in
      (with_promises ∅, [Broadcast accept_msg (Some (node_id nd))])
    else (with_promises promises, [])
  else (nd, []).

(** ** ReceiveAcceptSendAccepted (lines 176-197) *)
Definition ReceiveAcceptSendAccepted (message : Message.t) (nd : PaxosNode)
  : PaxosNode * list NetCall :=
  if bool_decide (Message.proposal_id message >= promised_proposal_id nd) then
    let nd' :=
      {| node_id := node_id nd;
         proposal_id := proposal_id nd;
         current_proposal_value := current_proposal_value nd;
         promises_received := promises_received nd;
         highest_accepted_id := highest_accepted_id nd;
         highest_accepted_value := highest_accepted_value nd;
         promised_proposal_id := promised_proposal_id nd;
         accepted_proposal_id := Message.proposal_id message;
         accepted_value := Message.value message;
         learned_values := learned_values nd;
         accept_counts := accept_counts nd |} in
    let accepted_msg :=
      Message.mk ACCEPTED (Message.proposal_id message) (node_id nd)
        "broadcast" (Message.value message) None None in
    (nd', [Broadcast accepted_msg (Some (node_id nd))])
  else (nd, []).

(** ** handle_accepted (lines 199-228) *)

(** [self.accept_counts[proposal_key][value_key]] after lines 207-210, where a
    missing entry has just been created empty. *)
Definition senders_of (ac : gmap Z (gmap (option string) (gset string)))
    (proposal_key : Z) (value_key : option string) : gset string :=
  default ∅ (default ∅ (ac !! proposal_key) !! value_key).

(** Lines 212-217: the senders recorded for the message's pair after the
    sender, and the node itself when its own acceptance matches, are added. *)
Definition counted_senders (message : Message.t) (nd : PaxosNode) : gset string :=
  let s : gset string :=
    senders_of (accept_counts nd) (Message.proposal_id message)
      (Message.value message) ∪ {[Message.sender_id message]} in
  if bool_decide (accepted_proposal_id nd = Message.proposal_id message
                  ∧ accepted_value nd = Message.value message)
  then s ∪ {[node_id nd]} else s.

Definition handle_accepted (n : nat) (message : Message.t) (nd : PaxosNode)
  : PaxosNode * list NetCall :=
  let proposal_key := Message.proposal_id message in
  let value_key := Message.value message in
  let inner := default ∅ (accept_counts nd !! proposal_key) in
  let senders := counted_senders message nd in
  let counts := <[proposal_key := <[value_key := senders]> inner]> (accept_counts nd) in
  let learned :=
    if bool_decide (majority_threshold n ≤ size senders)%nat then
      match learned_values nd !! proposal_key with
      | None => <[proposal_key := value_key]> (learned_values nd)
      | Some _ => learned_values nd
      end
    else learned_values nd in
  ({| node_id := node_id nd;
      proposal_id := proposal_id nd;
      current_proposal_value := current_proposal_value nd;
      promises_received := promises_received nd;
      highest_accepted_id := highest_accepted_id nd;
      highest_accepted_value := highest_accepted_value nd;
      promised_proposal_id := promised_proposal_id nd;
      accepted_proposal_id := accepted_proposal_id nd;
      accepted_value := accepted_value nd;
      learned_values := learned;
      accept_counts := counts |}, []).

(** ** receive_message (lines 230-244) *)
Definition receive_message (n : nat) (message : Message.t) (nd : PaxosNode)
  : PaxosNode * list NetCall :=
  match Message.msg_type message with
  | PREPARE => ReceiveProposeSendPromise message nd
  | PROMISE => ReceivePromiseSendAccept n message nd
  | ACCEPT => ReceiveAcceptSendAccepted message nd
  | ACCEPTED => handle_accepted n message nd
  end.

(** A node fed a sequence of messages: the states it goes through are folded,
    the calls of each delivery are kept apart. *)
Fixpoint deliver_all (n : nat) (ms : list Message.t) (nd : PaxosNode)
  : PaxosNode * list (list NetCall) :=
  match ms with
  | [] => (nd, [])
  | m :: ms' =>
      let '(nd1, calls) := receive_message n m nd in
      let '(nd2, rest) := deliver_all n ms' nd1 in
      (nd2, calls :: rest)
  end.

(** The states a node goes through, one per delivered message, with the calls
    of that delivery. *)
Fixpoint deliver_trace (n : nat) (ms : list Message.t) (nd : PaxosNode)
  : list (PaxosNode * list NetCall) :=
  match ms with
  | [] => []
  | m :: ms' =>
      let r := receive_message n m nd in
      r :: deliver_trace n ms' (fst r)
  end.

(** ** Network (lines 28-60)

    [nodes] is the dictionary [Network.nodes], in insertion order and keyed
    by [node_id]; [in_transit] holds the messages that [send_message] has
    taken and whose [receive_message] has not run yet; [awaiting_clear]
    holds, for every call of [ReceivePromiseSendAccept] that is inside its
    [broadcast] of line 170, the id of the node it runs on: line 174 of that
    call has not run yet. *)
Record Network : Type := mkNetwork {
  nodes : list PaxosNode;
  in_transit : list Message.t;
  awaiting_clear : list string
}.

(** [self.nodes[node.node_id] = node]: an existing key keeps its place. *)
Fixpoint add_node (node : PaxosNode) (ns : list PaxosNode) : list PaxosNode :=
  match ns with
  | [] => [node]
  | x :: rest =>
      if bool_decide (node_id x = node_id node) then node :: rest
      else x :: add_node node rest
  end.

(** [PaxosSimulation.create_node] (lines 254-258). *)
Definition create_node (nid : string) (ns : list PaxosNode) : list PaxosNode :=
  add_node (new_node nid) ns.

Definition node_ids (ns : list PaxosNode) : list string := map node_id ns.

(** [send_message] (lines 40-45): a message to an unknown receiver is lost. *)
Definition send_message (ns : list PaxosNode) (message : Message.t)
  : list Message.t :=
  if bool_decide (Message.receiver_id message ∈ node_ids ns) then [message]
  else [].

(** The copy of lines 51-59, addressed to [nid]. *)
Definition msg_copy (message : Message.t) (nid : string) : Message.t :=
  Message.mk (Message.msg_type message) (Message.proposal_id message)
    (Message.sender_id message) nid (Message.value message)
    (Message.accepted_proposal_id message) (Message.accepted_value message).

(** [broadcast] (lines 47-60). *)
Definition broadcast (ns : list PaxosNode) (message : Message.t)
    (exclude : option string) : list Message.t :=
  nd ← ns;
  if bool_decide (Some (node_id nd) ≠ exclude)
  then send_message ns (msg_copy message (node_id nd))
  else [].

Definition perform (ns : list PaxosNode) (c : NetCall) : list Message.t :=
  match c with
  | SendMessage m => send_message ns m
  | Broadcast m exclude => broadcast ns m exclude
  end.

Definition perform_all (ns : list PaxosNode) (cs : list NetCall)
  : list Message.t :=
  c ← cs; perform ns c.

(** ** ReceivePromiseSendAccept around its broadcast

    [broadcast] sleeps before every [receive_message] it calls and returns
    only after the last one has returned, and the proposals run on threads of
    their own without a lock: between line 170 and line 174 of
    [ReceivePromiseSendAccept] other handlers run, on this node too.  The
    handler is therefore taken in two parts. *)

(** Lines 131-170: the node when [broadcast] is called, promises not yet
    cleared, and the calls made. *)
Definition ReceivePromiseSendAccept_to_broadcast (n : nat)
    (message : Message.t) (nd : PaxosNode) : PaxosNode * list NetCall :=
  if bool_decide (Message.proposal_id message = proposal_id nd) then
    let promises : gset string :=
      promises_received nd ∪ {[Message.sender_id message]} in
    let '(hid, hval) :=
      note_accepted message (highest_accepted_id nd) (highest_accepted_value nd) in
    let nd' :=
      {| node_id := node_id nd;
         proposal_id := proposal_id nd;
         current_proposal_value := current_proposal_value nd;
         promises_received := promises;
         highest_accepted_id := hid;
         highest_accepted_value := hval;
         promised_proposal_id := promised_proposal_id nd;
         accepted_proposal_id := accepted_proposal_id nd;
         accepted_value := accepted_value nd;
         learned_values := learned_values nd;
         accept_counts := accept_counts nd |} in
    if bool_decide (majority_threshold n ≤ size promises)%nat then
      let accept_msg :=
        Message.mk ACCEPT (proposal_id nd) (node_id nd) "broadcast"
          (value_to_accept hval (current_proposal_value nd)) None None in
      (nd', [Broadcast accept_msg (Some (node_id nd))])
    else (nd', [])
  else (nd, []).

(** Line 174, run when the broadcast has returned. *)
Definition clear_promises (nd : PaxosNode) : PaxosNode :=
  {| node_id := node_id nd;
     proposal_id := proposal_id nd;
     current_proposal_value := current_proposal_value nd;
     promises_received := ∅;
     highest_accepted_id := highest_accepted_id nd;
     highest_accepted_value := highest_accepted_value nd;
     promised_proposal_id := promised_proposal_id nd;
     accepted_proposal_id := accepted_proposal_id nd;
     accepted_value := accepted_value nd;
     learned_values := learned_values nd;
     accept_counts := accept_counts nd |}.

(** A handler up to the return of its calls on the network.  The other
    handlers assign their fields before they call the network and assign
    nothing afterwards. *)
Definition begin_message (n : nat) (message : Message.t) (nd : PaxosNode)
  : PaxosNode * list NetCall :=
  match Message.msg_type message with
  | PROMISE => ReceivePromiseSendAccept_to_broadcast n message nd
  | _ => receive_message n message nd
  end.

(** The handler has called [broadcast] at line 170: line 174 is still to
    run. *)
Definition awaits_clear (n : nat) (message : Message.t) (nd : PaxosNode)
  : bool :=
  bool_decide (Message.msg_type message = PROMISE
               ∧ Message.proposal_id message = proposal_id nd
               ∧ (majority_threshold n
                  ≤ size (promises_received nd ∪ {[Message.sender_id message]}))%nat).

(** ** Runs of the whole system

    A run is a sequence of events: a [propose] call on a registered node, with
    the clock reading the call makes; the delivery of one message in transit,
    which runs the receiver's handler up to the return of its network calls;
    or the return of the broadcast of a [ReceivePromiseSendAccept] call,
    after which its line 174 runs.  In paxos.py [send_message] sleeps and
    then calls the receiver's [receive_message] itself, and [run_simulation]
    starts every proposal on a thread of its own, so which event comes next
    is not fixed: here any message in transit may be the next one delivered,
    each message is delivered once, as [send_message] does, and a broadcast
    that has been called may return at any later point.  The assignments a
    handler makes between two network calls are one event.  A run of
    paxos.py whose threads take turns at the sleeps of [send_message] is such
    a sequence, with each thread delivering depth first and line 174 coming
    after the last delivery under its broadcast; the sequences also include
    orders that the threads do not produce. *)
Inductive Event : Type :=
  | Propose (nid : string) (now : Z) (value : option string)
  | Deliver (i : nat)
  | Return (i : nat).

Definition find_node (nid : string) (ns : list PaxosNode)
  : option (nat * PaxosNode) :=
  list_find (λ nd, node_id nd = nid) ns.

(** The node at index [j] has run a handler: its new state is stored and the
    calls it made are performed. *)
Definition commit (net : Network) (transit : list Message.t) (j : nat)
    (r : PaxosNode * list NetCall) : Network :=
  {| nodes := <[j := fst r]> (nodes net);
     in_transit := transit ++ perform_all (nodes net) (snd r);
     awaiting_clear := awaiting_clear net |}.

(** The call on node [nid] is inside its broadcast, if [b]. *)
Definition await (b : bool) (nid : string) (net : Network) : Network :=
  {| nodes := nodes net;
     in_transit := in_transit net;
     awaiting_clear :=
       if b then awaiting_clear net ++ [nid] else awaiting_clear net |}.

(** The [i]-th call that was inside its broadcast has finished. *)
Definition finish (i : nat) (net : Network) : Network :=
  {| nodes := nodes net;
     in_transit := in_transit net;
     awaiting_clear := delete i (awaiting_clear net) |}.

(** A message for a node that is not registered is lost. *)
Definition lose (transit : list Message.t) (net : Network) : Network :=
  {| nodes := nodes net;
     in_transit := transit;
     awaiting_clear := awaiting_clear net |}.

Definition step (ev : Event) (net : Network) : Network :=
  match ev with
  | Propose nid now value =>
      match find_node nid (nodes net) with
      | Some (j, nd) => commit net (in_transit net) j (propose now value nd)
      | None => net
      end
  | Deliver i =>
      match in_transit net !! i with
      | Some m =>
          let transit := delete i (in_transit net) in
          match find_node (Message.receiver_id m) (nodes net) with
          | Some (j, nd) =>
              await (awaits_clear (length (nodes net)) m nd) (node_id nd)
                (commit net transit j
                   (begin_message (length (nodes net)) m nd))
          | None => lose transit net
          end
      | None => net
      end
  | Return i =>
      match awaiting_clear net !! i with
      | Some nid =>
          match find_node nid (nodes net) with
          | Some (j, nd) =>
              finish i (commit net (in_transit net) j (clear_promises nd, []))
          | None => finish i net
          end
      | None => net
      end
  end.

Fixpoint run (evs : list Event) (net : Network) : Network :=
  match evs with
  | [] => net
  | ev :: evs' => run evs' (step ev net)
  end.

(** The network after [create_node] has been called for each id of [ids]. *)
Definition initial (ids : list string) : Network :=
  {| nodes := foldl (λ ns nid, create_node nid ns) [] ids;
     in_transit := [];
     awaiting_clear := [] |}.

(** A run of [run_simulation] on five nodes with the pending proposals
    (node1, old), (node0, A) and (node0, B), which it starts on three threads.
    The clock reads 500 on the first thread and 1000 on both others.  The
    threads take turns at the [time.sleep] of [send_message]; each line is
    what one thread does between two sleeps.  A [broadcast] serves the
    receivers in the order of the dictionary, and a handler's calls are over
    before the next receiver is served, so each thread delivers depth first;
    the run goes on until all three threads have finished. *)
Definition five_nodes : list string :=
  ["node0"; "node1"; "node2"; "node3"; "node4"]%string.

Definition colliding_run : list Event :=
  [
    Propose "node1" 500 (Some "old"%string);(* thread 1: propose *)
    Deliver 0;                              (* thread 1: PREPARE 500, node1 to node0 *)
    Deliver 3;                              (* thread 1: PROMISE 500, node0 to node1 *)
    Deliver 0;                              (* thread 1: PREPARE 500, node1 to node2 *)
    Deliver 2;                              (* thread 1: PROMISE 500, node2 to node1 *)
    Deliver 0;                              (* thread 1: PREPARE 500, node1 to node3 *)
    Deliver 1;                              (* thread 1: PROMISE 500, node3 to node1 *)
    Deliver 1;                              (* thread 1: ACCEPT 500 old, node1 to node0 *)
    Deliver 4;                              (* thread 1: ACCEPTED 500 old, node0 to node1 *)
    Deliver 4;                              (* thread 1: ACCEPTED 500 old, node0 to node2 *)
    Deliver 4;                              (* thread 1: ACCEPTED 500 old, node0 to node3 *)
    Deliver 4;                              (* thread 1: ACCEPTED 500 old, node0 to node4 *)
    Deliver 1;                              (* thread 1: ACCEPT 500 old, node1 to node2 *)
    Deliver 3;                              (* thread 1: ACCEPTED 500 old, node2 to node0 *)
    Deliver 3;                              (* thread 1: ACCEPTED 500 old, node2 to node1 *)
    Deliver 3;                              (* thread 1: ACCEPTED 500 old, node2 to node3 *)
    Deliver 3;                              (* thread 1: ACCEPTED 500 old, node2 to node4 *)
    Propose "node0" 1000 (Some "A"%string); (* thread 2: propose *)
    Propose "node0" 1000 (Some "B"%string); (* thread 3: propose *)
    Deliver 3;                              (* thread 2: PREPARE 1000, node0 to node1 *)
    Deliver 10;                             (* thread 2: PROMISE 1000, node1 to node0 *)
    Deliver 3;                              (* thread 2: PREPARE 1000, node0 to node2 *)
    Deliver 5;                              (* thread 3: PREPARE 1000, node0 to node1 *)
    Deliver 5;                              (* thread 3: PREPARE 1000, node0 to node2 *)
    Deliver 3;                              (* thread 3: PREPARE 1000, node0 to node3 *)
    Deliver 7;                              (* thread 3: PROMISE 1000, node3 to node0 *)
    Deliver 3;                              (* thread 3: PREPARE 1000, node0 to node4 *)
    Deliver 6;                              (* thread 3: PROMISE 1000, node4 to node0 *)
    Deliver 5;                              (* thread 2: PROMISE 1000 (500, old), node2 to node0 *)
    Deliver 5;                              (* thread 3: ACCEPT 1000 B, node0 to node1 *)
    Deliver 12;                             (* thread 3: ACCEPTED 1000 B, node1 to node0 *)
    Deliver 12;                             (* thread 3: ACCEPTED 1000 B, node1 to node2 *)
    Deliver 12;                             (* thread 3: ACCEPTED 1000 B, node1 to node3 *)
    Deliver 12;                             (* thread 3: ACCEPTED 1000 B, node1 to node4 *)
    Deliver 5;                              (* thread 3: ACCEPT 1000 B, node0 to node2 *)
    Deliver 11;                             (* thread 3: ACCEPTED 1000 B, node2 to node0 *)
    Deliver 11;                             (* thread 3: ACCEPTED 1000 B, node2 to node1 *)
    Deliver 11;                             (* thread 3: ACCEPTED 1000 B, node2 to node3 *)
    Deliver 11;                             (* thread 3: ACCEPTED 1000 B, node2 to node4 *)
    Deliver 5;                              (* thread 3: ACCEPT 1000 B, node0 to node3 *)
    Deliver 10;                             (* thread 3: ACCEPTED 1000 B, node3 to node0 *)
    Deliver 6;                              (* thread 2: ACCEPT 1000 old, node0 to node1 *)
    Deliver 12;                             (* thread 2: ACCEPTED 1000 old, node1 to node0 *)
    Deliver 12;                             (* thread 2: ACCEPTED 1000 old, node1 to node2 *)
    Deliver 12;                             (* thread 2: ACCEPTED 1000 old, node1 to node3 *)
    Deliver 12;                             (* thread 2: ACCEPTED 1000 old, node1 to node4 *)
    Deliver 6;                              (* thread 2: ACCEPT 1000 old, node0 to node2 *)
    Deliver 11;                             (* thread 2: ACCEPTED 1000 old, node2 to node0 *)
    Deliver 11;                             (* thread 2: ACCEPTED 1000 old, node2 to node1 *)
    Deliver 11;                             (* thread 2: ACCEPTED 1000 old, node2 to node3 *)
    Deliver 11;                             (* thread 2: ACCEPTED 1000 old, node2 to node4 *)
    Deliver 6;                              (* thread 2: ACCEPT 1000 old, node0 to node3 *)
    Deliver 10;                             (* thread 2: ACCEPTED 1000 old, node3 to node0 *)
    Deliver 10;                             (* thread 2: ACCEPTED 1000 old, node3 to node1 *)
    Deliver 1;                              (* thread 1: ACCEPT 500 old, node1 to node3 *)
    Deliver 1;                              (* thread 1: ACCEPT 500 old, node1 to node4 *)
    Return 0;                               (* thread 1: line 174 on node1 *)
    Deliver 0;                              (* thread 1: PREPARE 500, node1 to node4 *)
    Deliver 7;                              (* thread 2: ACCEPTED 1000 old, node3 to node2 *)
    Deliver 7;                              (* thread 2: ACCEPTED 1000 old, node3 to node4 *)
    Deliver 3;                              (* thread 2: ACCEPT 1000 old, node0 to node4 *)
    Deliver 6;                              (* thread 2: ACCEPTED 1000 old, node4 to node0 *)
    Deliver 6;                              (* thread 2: ACCEPTED 1000 old, node4 to node1 *)
    Deliver 6;                              (* thread 2: ACCEPTED 1000 old, node4 to node2 *)
    Deliver 6;                              (* thread 2: ACCEPTED 1000 old, node4 to node3 *)
    Return 0;                               (* thread 2: line 174 on node0 *)
    Deliver 0;                              (* thread 2: PREPARE 1000, node0 to node3 *)
    Deliver 0;                              (* thread 2: PREPARE 1000, node0 to node4 *)
    Deliver 1;                              (* thread 3: ACCEPTED 1000 B, node3 to node1 *)
    Deliver 1;                              (* thread 3: ACCEPTED 1000 B, node3 to node2 *)
    Deliver 1;                              (* thread 3: ACCEPTED 1000 B, node3 to node4 *)
    Deliver 0;                              (* thread 3: ACCEPT 1000 B, node0 to node4 *)
    Deliver 0;                              (* thread 3: ACCEPTED 1000 B, node4 to node0 *)
    Deliver 0;                              (* thread 3: ACCEPTED 1000 B, node4 to node1 *)
    Deliver 0;                              (* thread 3: ACCEPTED 1000 B, node4 to node2 *)
    Deliver 0;                              (* thread 3: ACCEPTED 1000 B, node4 to node3 *)
    Return 0                                (* thread 3: line 174 on node0 *)
  ].


(** ** Runs that keep the windows

    The window of a call of [ReceivePromiseSendAccept] is the time between
    its lines 170 and 174.  An event keeps the windows when it does not hand
    a node that is inside a window a PROMISE for its current proposal. *)
Definition keeps_window (ev : Event) (net : Network) : bool :=
  match ev with
  | Deliver i =>
      match in_transit net !! i with
      | Some m =>
          match find_node (Message.receiver_id m) (nodes net) with
          | Some (_, nd) =>
              negb (bool_decide (node_id nd ∈ awaiting_clear net
                                 ∧ Message.msg_type m = PROMISE
                                 ∧ Message.proposal_id m = proposal_id nd))
          | None => true
          end
      | None => true
      end
  | _ => true
  end.

Fixpoint windows_kept (evs : list Event) (net : Network) : bool :=
  match evs with
  | [] => true
  | ev :: evs' => keeps_window ev net && windows_kept evs' (step ev net)
  end.

(** * Predicates and measures used in the statements *)

(** The ids of the PROMISE messages among the calls of one delivery. *)
Definition promise_ids (cs : list NetCall) : list Z :=
  c ← cs;
  match c with
  | SendMessage m =>
      if bool_decide (Message.msg_type m = PROMISE)
      then [Message.proposal_id m] else []
  | Broadcast _ _ => []
  end.

(** The message's sender is recorded for the message's pair in
    [accept_counts], and so is the node itself if its own acceptance is that
    pair. *)
Definition counted (m : Message.t) (nd : PaxosNode) : Prop :=
  ∃ inner s,
    accept_counts nd !! Message.proposal_id m = Some inner
    ∧ inner !! Message.value m = Some s
    ∧ Message.sender_id m ∈ s
    ∧ (accepted_proposal_id nd = Message.proposal_id m
       ∧ accepted_value nd = Message.value m → node_id nd ∈ s).

(** The prior accepted pair a message carries: both fields are not [None]
    (line 140). *)
Definition prior_pair (m : Message.t) : option (Z * string) :=
  match Message.accepted_proposal_id m, Message.accepted_value m with
  | Some aid, Some aval => Some (aid, aval)
  | _, _ => None
  end.

(** The pairs carried by the PROMISE messages for proposal [now] in [ms], in
    the order of delivery. *)
Definition pairs_seen (now : Z) (ms : list Message.t) : list (Z * string) :=
  omap (λ m,
          if bool_decide (Message.msg_type m = PROMISE
                          ∧ Message.proposal_id m = now)
          then prior_pair m else None) ms.

(** What the proposer holds after the pairs [seen] have reached it since its
    [propose now own]: nothing if no pair was seen, otherwise a pair of
    [seen] whose id no other pair of [seen] exceeds. *)
Definition adopted (now : Z) (own : option string) (seen : list (Z * string))
    (nd : PaxosNode) : Prop :=
  proposal_id nd = now
  ∧ current_proposal_value nd = own
  ∧ (seen = [] → highest_accepted_id nd = -1 ∧ highest_accepted_value nd = None)
  ∧ (seen ≠ [] →
     ∃ i v, highest_accepted_id nd = i
            ∧ highest_accepted_value nd = Some v
            ∧ (i, v) ∈ seen
            ∧ ∀ p, p ∈ seen → p.1 ≤ i).

(** ** The potential of a proposal id

    For an id [k], a proposer can broadcast ACCEPT only after counting a
    majority of promises for [k], and every acceptor makes at most one promise
    for [k], to one proposer.  [potential k] bounds the promises for [k] that
    can still be counted: the acceptors that could still promise [k], the
    PROMISE messages for [k] in transit, and the promises held by proposers
    whose current proposal is [k].  A handler run with line 174 done does not
    add to it, it is at most the number of nodes at the start, and an ACCEPT
    broadcast for [k] followed by line 174 takes a majority off it. *)
Definition is_promise_for (k : Z) (m : Message.t) : Prop :=
  Message.msg_type m = PROMISE ∧ Message.proposal_id m = k.

#[global] Instance is_promise_for_dec (k : Z) (m : Message.t) :
  Decision (is_promise_for k m).
Proof. unfold is_promise_for. apply _. Defined.

Definition count_promises (k : Z) (l : list Message.t) : nat :=
  length (filter (is_promise_for k) l).

Definition node_weight (k : Z) (nd : PaxosNode) : nat :=
  let may_promise : nat :=
    if bool_decide (promised_proposal_id nd < k) then 1%nat else 0%nat in
  let held : nat :=
    if bool_decide (proposal_id nd = k) then size (promises_received nd)
    else 0%nat in
  (may_promise + held)%nat.


(** The message is a phase-2 message for id [k] with value [v]. *)
Definition msg_votes (k : Z) (v : option string) (m : Message.t) : Prop :=
  (Message.msg_type m = ACCEPT ∨ Message.msg_type m = ACCEPTED)
  ∧ Message.proposal_id m = k
  ∧ Message.value m = v.

(** The learner of the node has an entry for value [v] under id [k]. *)
Definition node_records (k : Z) (v : option string) (nd : PaxosNode) : Prop :=
  (∃ inner, accept_counts nd !! k = Some inner ∧ is_Some (inner !! v))
  ∨ learned_values nd !! k = Some v.





(** ** The effect of one handler run

    [rm] is the message the run consumes ([None] for [propose]), [nd] the
    node before and [r] the handler's result.  The run does not add to the
    potential of any id; the entries of the learner and the phase-2 messages
    it sends repeat the pair of the consumed message, unless the run is an
    ACCEPT broadcast, which is for one pair and takes a majority off the
    potential of its id. *)
Definition removed_promise (k : Z) (rm : option Message.t) : nat :=
  match rm with
  | Some m => if bool_decide (is_promise_for k m) then 1%nat else 0%nat
  | None => 0%nat
  end.

Definition removed_votes (k : Z) (v : option string) (rm : option Message.t)
  : Prop :=
  match rm with
  | Some m => msg_votes k v m
  | None => False
  end.

Definition handler_ok (ns : list PaxosNode) (rm : option Message.t)
    (nd : PaxosNode) (r : PaxosNode * list NetCall) : Prop :=
  let new := perform_all ns r.2 in
  (∀ k, (node_weight k r.1 + count_promises k new
         ≤ node_weight k nd + removed_promise k rm)%nat)
  ∧ (∀ k v, node_records k v r.1 →
            node_records k v nd ∨ removed_votes k v rm)
  ∧ ((∀ m' k v, m' ∈ new → msg_votes k v m' → removed_votes k v rm)
     ∨ (∃ k0 v0,
          (∀ m' k v, m' ∈ new → msg_votes k v m' → k = k0 ∧ v = v0)
          ∧ (node_weight k0 r.1 + majority_threshold (length ns)
             + count_promises k0 new
             ≤ node_weight k0 nd + removed_promise k0 rm)%nat)).

Definition fresh (nd : PaxosNode) : Prop := ∃ nid, nd = new_node nid.

(** ** Ids in use

    -1 is what a node holds before it has promised or accepted anything
    (lines 78-79), and line 123 reports an accepted id of -1 as [None]; the
    ids of promises and of accepted proposals are above it. *)
Definition node_valid (nd : PaxosNode) : Prop :=
  -1 ≤ promised_proposal_id nd ∧ -1 ≤ accepted_proposal_id nd.

Definition msg_valid (m : Message.t) : Prop :=
  (Message.msg_type m = PROMISE →
   -1 < Message.proposal_id m
   ∧ ∀ i, Message.accepted_proposal_id m = Some i → -1 < i)
  ∧ (Message.msg_type m = ACCEPT → -1 < Message.proposal_id m).

Definition ids_valid (net : Network) : Prop :=
  Forall node_valid (nodes net) ∧ Forall msg_valid (in_transit net).

(** ** PaxosSimulation (lines 247-263)

    [pending_proposals] holds the (node id, value) pairs that
    [run_simulation] will propose. *)
Record PaxosSimulation : Type := mkSimulation {
  network : Network;
  pending_proposals : list (string * option string)
}.

(** [PaxosSimulation.__init__] with [Network.__init__]. *)
Definition new_simulation : PaxosSimulation :=
  {| network := {| nodes := []; in_transit := []; awaiting_clear := [] |};
     pending_proposals := [] |}.

(** [PaxosSimulation.create_node], on the simulation. *)
Definition simulation_create_node (nid : string) (sim : PaxosSimulation)
  : PaxosSimulation :=
  {| network := {| nodes := create_node nid (nodes (network sim));
                   in_transit := in_transit (network sim);
                   awaiting_clear := awaiting_clear (network sim) |};
     pending_proposals := pending_proposals sim |}.

(** [add_proposal] (lines 260-263). *)
Definition add_proposal (nid : string) (value : option string)
    (sim : PaxosSimulation) : PaxosSimulation :=
  if bool_decide (nid ∈ node_ids (nodes (network sim))) then
    {| network := network sim;
       pending_proposals := pending_proposals sim ++ [(nid, value)] |}
  else sim.

(** The calls of the controller before [run_simulation]. *)
Inductive SimCall : Type :=
  | CreateNode (nid : string)
  | AddProposal (nid : string) (value : option string).

Definition sim_call (c : SimCall) (sim : PaxosSimulation) : PaxosSimulation :=
  match c with
  | CreateNode nid => simulation_create_node nid sim
  | AddProposal nid value => add_proposal nid value sim
  end.

Fixpoint sim_calls (cs : list SimCall) (sim : PaxosSimulation)
  : PaxosSimulation :=
  match cs with
  | [] => sim
  | c :: cs' => sim_calls cs' (sim_call c sim)
  end.

(** ** Addresses

    The message goes from one registered node to another one. *)
Definition well_addressed (ids : list string) (m : Message.t) : Prop :=
  Message.receiver_id m ∈ ids
  ∧ Message.sender_id m ∈ ids
  ∧ Message.sender_id m ≠ Message.receiver_id m.

(** The ids of the registered nodes other than [nid]. *)
Definition peers (ids : list string) (nid : string) : gset string :=
  list_to_set ids ∖ {[nid]}.

(** The promises a proposer holds come from its peers, and the senders its
    learner has counted are registered nodes. *)
Definition node_wf (ids : list string) (nd : PaxosNode) : Prop :=
  node_id nd ∈ ids
  ∧ promises_received nd ⊆ peers ids (node_id nd)
  ∧ ∀ k v, senders_of (accept_counts nd) k v ⊆ list_to_set ids.

Definition wf (net : Network) : Prop :=
  Forall (well_addressed (node_ids (nodes net))) (in_transit net)
  ∧ Forall (node_wf (node_ids (nodes net))) (nodes net).

(** Nothing of phase 2 has happened: no ACCEPT or ACCEPTED message is in
    transit and no learner has recorded anything. *)
Definition undecided (net : Network) : Prop :=
  Forall (λ m, Message.msg_type m ≠ ACCEPT ∧ Message.msg_type m ≠ ACCEPTED)
    (in_transit net)
  ∧ Forall (λ nd, learned_values nd = ∅ ∧ accept_counts nd = ∅) (nodes net).

(** Every learned value has a majority of counted senders behind it. *)
Definition backed (n : nat) (nd : PaxosNode) : Prop :=
  ∀ k v, learned_values nd !! k = Some v →
         (majority_threshold n ≤ size (senders_of (accept_counts nd) k v))%nat.

(** A node that holds -1 as accepted id holds no accepted value, and a
    PROMISE without an accepted id carries no accepted value. *)
Definition pairs_consistent (net : Network) : Prop :=
  Forall (λ nd, accepted_proposal_id nd = -1 → accepted_value nd = None)
    (nodes net)
  ∧ Forall (λ m, Message.msg_type m = PROMISE →
                 Message.accepted_proposal_id m = None →
                 Message.accepted_value m = None)
      (in_transit net).

(** Every value held or carried anywhere satisfies [V]. *)
Definition node_values (V : string → Prop) (nd : PaxosNode) : Prop :=
  (∀ s, current_proposal_value nd = Some s → V s)
  ∧ (∀ s, highest_accepted_value nd = Some s → V s)
  ∧ (∀ s, accepted_value nd = Some s → V s)
  ∧ (∀ k s, learned_values nd !! k = Some (Some s) → V s)
  ∧ (∀ k s, node_records k (Some s) nd → V s).

Definition msg_values (V : string → Prop) (m : Message.t) : Prop :=
  (∀ s, Message.value m = Some s → V s)
  ∧ (∀ s, Message.accepted_value m = Some s → V s).

Definition values_from (V : string → Prop) (net : Network) : Prop :=
  Forall (node_values V) (nodes net) ∧ Forall (msg_values V) (in_transit net).

(** The value was passed to [propose] on a registered node in the run. *)
Definition proposed_in (evs : list Event) (ids : list string) (s : string)
  : Prop :=
  ∃ nid now, Propose nid now (Some s) ∈ evs ∧ nid ∈ ids.

(** * Proof automation *)

Ltac handler_unfold :=
  unfold receive_message, ReceiveProposeSendPromise, ReceivePromiseSendAccept,
    ReceiveAcceptSendAccepted, handle_accepted, propose in *.

Ltac handler_cases :=
  handler_unfold;
  repeat (simpl in *;
    first [ case_bool_decide
          | match goal with
            | |- context [let '(_, _) := ?p in _] => destruct p eqn:?
            | |- context [match ?o with Some _ => _ | None => _ end] =>
                destruct o eqn:?
            end ]);
  simpl in *.

(** Projections of explicit records are computed; nothing else is unfolded. *)
Ltac fields :=
  cbn [fst snd node_id proposal_id current_proposal_value promises_received
       highest_accepted_id highest_accepted_value promised_proposal_id
       accepted_proposal_id accepted_value learned_values accept_counts
       Message.msg_type Message.proposal_id Message.sender_id
       Message.receiver_id Message.value Message.accepted_proposal_id
       Message.accepted_value] in *.

(** The invariants read [nodes] and [in_transit] only. *)
Ltac same_view :=
  match goal with
  | |- ?P (await _ _ ?net) => change (P net)
  | |- ?P (finish _ ?net) => change (P net)
  end.

(** * Properties of one node *)

Lemma receive_message_promised (n : nat) (m : Message.t) (nd : PaxosNode) :
  promised_proposal_id nd ≤ promised_proposal_id (receive_message n m nd).1.
Proof.
  destruct (Message.msg_type m) eqn:Ht; unfold receive_message; rewrite Ht;
    handler_cases; lia.
Qed.

Lemma receive_message_node_id (n : nat) (m : Message.t) (nd : PaxosNode) :
  node_id (receive_message n m nd).1 = node_id nd.
Proof.
  destruct (Message.msg_type m) eqn:Ht; unfold receive_message; rewrite Ht;
    handler_cases; reflexivity.
Qed.

Lemma deliver_all_promised (n : nat) (ms : list Message.t) (nd : PaxosNode) :
  promised_proposal_id nd ≤ promised_proposal_id (deliver_all n ms nd).1.
Proof.
  revert nd. induction ms as [|m ms IH]; intros nd; simpl; [lia|].
  pose proof (receive_message_promised n m nd) as Hm.
  destruct (receive_message n m nd) as [nd1 calls]; simpl in Hm.
  specialize (IH nd1). destruct (deliver_all n ms nd1) as [nd2 rest].
  simpl in *. lia.
Qed.

(** C5. Monotonic promise: [promised_proposal_id] never decreases, whatever
    messages are delivered and whatever is proposed; the PREPARE handler
    moves it to the message's id and sends one PROMISE back to the sender
    exactly when that id is strictly greater, and otherwise does nothing; a
    fresh acceptor fed PREPARE ids 5, 3, 7, 7, 9 goes through promised ids
    5, 5, 7, 7, 9 and replies to the first, third and fifth only. *)
Theorem promised_id_monotone :
  (∀ (n : nat) (ms : list Message.t) (nd : PaxosNode),
      promised_proposal_id nd ≤ promised_proposal_id (deliver_all n ms nd).1)
  ∧ (∀ (now : Z) (v : option string) (nd : PaxosNode),
      promised_proposal_id (propose now v nd).1 = promised_proposal_id nd)
  ∧ (∀ (m : Message.t) (nd : PaxosNode),
      let r := ReceiveProposeSendPromise m nd in
      (Message.proposal_id m > promised_proposal_id nd →
         promised_proposal_id r.1 = Message.proposal_id m
         ∧ ∃ p, r.2 = [SendMessage p]
                ∧ Message.msg_type p = PROMISE
                ∧ Message.proposal_id p = Message.proposal_id m
                ∧ Message.sender_id p = node_id nd
                ∧ Message.receiver_id p = Message.sender_id m)
      ∧ (¬ Message.proposal_id m > promised_proposal_id nd → r = (nd, [])))
  ∧ (let prepare i := Message.mk PREPARE i "p" "a" None None None in
     let tr := deliver_trace 3 (map prepare [5; 3; 7; 7; 9]) (new_node "a") in
     map (λ r, promised_proposal_id r.1) tr = [5; 5; 7; 7; 9]
     ∧ map (λ r, promise_ids r.2) tr = [[5]; []; [7]; []; [9]]).
Proof.
  split; [exact deliver_all_promised|].
  split; [reflexivity|].
  split.
  - intros m nd r. subst r. unfold ReceiveProposeSendPromise.
    case_bool_decide as Hgt; simpl; split; intros H; try done.
    split; [reflexivity|]. eexists. split; [reflexivity|]. done.
  - split; reflexivity.
Qed.

(** C6. An ACCEPT message is accepted exactly when its id is at least the
    promised id: then the accepted pair becomes the message's pair, nothing
    else of the node changes, and one ACCEPTED message for that pair is
    broadcast; otherwise the node is left as it was and no call is made on
    the network. *)
Theorem accept_iff_not_below_promise (m : Message.t) (nd : PaxosNode) :
  let r := ReceiveAcceptSendAccepted m nd in
  (Message.proposal_id m >= promised_proposal_id nd →
     accepted_proposal_id r.1 = Message.proposal_id m
     ∧ accepted_value r.1 = Message.value m
     ∧ r.1 = mkNode (node_id nd) (proposal_id nd) (current_proposal_value nd)
               (promises_received nd) (highest_accepted_id nd)
               (highest_accepted_value nd) (promised_proposal_id nd)
               (Message.proposal_id m) (Message.value m)
               (learned_values nd) (accept_counts nd)
     ∧ r.2 = [Broadcast
                (Message.mk ACCEPTED (Message.proposal_id m) (node_id nd)
                   "broadcast" (Message.value m) None None)
                (Some (node_id nd))])
  ∧ (¬ Message.proposal_id m >= promised_proposal_id nd → r = (nd, []))
  ∧ (r.2 ≠ [] ↔ Message.proposal_id m >= promised_proposal_id nd).
Proof.
  intros r. subst r. unfold ReceiveAcceptSendAccepted.
  case_bool_decide as Hge; simpl.
  - split; [done|]. split; [done|]. split; [done|]. intros _. done.
  - split; [done|]. split; [done|]. split; [done|]. intros ?. done.
Qed.

Lemma receive_message_learned_keeps (n : nat) (m : Message.t) (nd : PaxosNode)
    (k : Z) (v : option string) :
  learned_values nd !! k = Some v →
  learned_values (receive_message n m nd).1 !! k = Some v.
Proof.
  intros Hk.
  destruct (Message.msg_type m) eqn:Ht; unfold receive_message; rewrite Ht;
    handler_cases; try done.
  destruct (decide (k = Message.proposal_id m)) as [->|Hne].
  - congruence.
  - by rewrite lookup_insert_ne.
Qed.

Lemma deliver_all_learned_keeps (n : nat) (ms : list Message.t)
    (nd : PaxosNode) (k : Z) (v : option string) :
  learned_values nd !! k = Some v →
  learned_values (deliver_all n ms nd).1 !! k = Some v.
Proof.
  revert nd. induction ms as [|m ms IH]; intros nd Hk; simpl; [done|].
  pose proof (receive_message_learned_keeps n m nd k v Hk) as Hm.
  destruct (receive_message n m nd) as [nd1 calls]; simpl in Hm.
  specialize (IH nd1 Hm). by destruct (deliver_all n ms nd1) as [nd2 rest].
Qed.

Lemma receive_message_learned_new (n : nat) (m : Message.t) (nd : PaxosNode)
    (k : Z) (v : option string) :
  learned_values nd !! k = None →
  learned_values (receive_message n m nd).1 !! k = Some v →
  Message.msg_type m = ACCEPTED
  ∧ k = Message.proposal_id m
  ∧ v = Message.value m
  ∧ (majority_threshold n ≤ size (counted_senders m nd))%nat.
Proof.
  intros Hnone.
  destruct (Message.msg_type m) eqn:Ht; unfold receive_message; rewrite Ht;
    handler_cases; intros Hsome; try congruence.
  destruct (decide (k = Message.proposal_id m)) as [->|Hne].
  - rewrite lookup_insert_eq in Hsome. by simplify_eq.
  - rewrite lookup_insert_ne in Hsome by done. congruence.
Qed.

(** C7. Write-once learning: a learned entry survives every further delivery
    and every [propose]; an entry appears only through an ACCEPTED message
    for that id, with the message's value, when the senders counted for the
    pair reach the majority threshold and no entry was there; and in that
    situation it does appear. *)
Theorem learned_write_once :
  (∀ (n : nat) (ms : list Message.t) (nd : PaxosNode) (k : Z)
     (v : option string),
      learned_values nd !! k = Some v →
      learned_values (deliver_all n ms nd).1 !! k = Some v)
  ∧ (∀ (now : Z) (val : option string) (nd : PaxosNode),
      learned_values (propose now val nd).1 = learned_values nd)
  ∧ (∀ (n : nat) (m : Message.t) (nd : PaxosNode) (k : Z)
       (v : option string),
      learned_values nd !! k = None →
      learned_values (receive_message n m nd).1 !! k = Some v →
      Message.msg_type m = ACCEPTED
      ∧ k = Message.proposal_id m
      ∧ v = Message.value m
      ∧ (majority_threshold n ≤ size (counted_senders m nd))%nat)
  ∧ (∀ (n : nat) (m : Message.t) (nd : PaxosNode),
      (majority_threshold n ≤ size (counted_senders m nd))%nat →
      learned_values nd !! Message.proposal_id m = None →
      learned_values (handle_accepted n m nd).1
      = <[Message.proposal_id m := Message.value m]> (learned_values nd)).
Proof.
  split; [exact deliver_all_learned_keeps|].
  split; [reflexivity|].
  split; [exact receive_message_learned_new|].
  intros n m nd Hq Hnone. unfold handle_accepted; simpl.
  rewrite bool_decide_eq_true_2 by done. by rewrite Hnone.
Qed.

Lemma majority_threshold_majority (n : nat) :
  (n < 2 * majority_threshold n)%nat.
Proof.
  unfold majority_threshold.
  pose proof (Nat.div_mod_eq n 2) as Hd.
  pose proof (Nat.mod_upper_bound n 2) as Hm. lia.
Qed.

Lemma majority_threshold_least (n q : nat) :
  (n < 2 * q)%nat → (majority_threshold n ≤ q)%nat.
Proof.
  unfold majority_threshold. intros Hq.
  pose proof (Nat.div_mod_eq n 2) as Hd. lia.
Qed.

(** C8. The threshold is [n / 2 + 1] with integer division, that is the
    least count of nodes that is more than half of [n]; it is 1, 2, 2, 3, 3,
    4, 6 for 1, 2, 3, 4, 5, 7, 10 nodes; the proposer broadcasts ACCEPT
    exactly when the promises it holds, the new sender included, number at
    least [n / 2 + 1], and the learner records a value for a free id exactly
    when the senders counted for the pair number at least [n / 2 + 1]. *)
Theorem majority_threshold_spec :
  (∀ n : nat, majority_threshold n = (n / 2 + 1)%nat)
  ∧ (∀ n : nat, (n < 2 * majority_threshold n)%nat
       ∧ ∀ q : nat, (n < 2 * q)%nat → (majority_threshold n ≤ q)%nat)
  ∧ map majority_threshold [1; 2; 3; 4; 5; 7; 10]%nat
    = [1; 2; 2; 3; 3; 4; 6]%nat
  ∧ (∀ (n : nat) (m : Message.t) (nd : PaxosNode),
      Message.proposal_id m = proposal_id nd →
      ((ReceivePromiseSendAccept n m nd).2 ≠ []
       ↔ (n / 2 + 1 ≤ size (promises_received nd ∪ {[Message.sender_id m]}))%nat))
  ∧ (∀ (n : nat) (m : Message.t) (nd : PaxosNode),
      learned_values nd !! Message.proposal_id m = None →
      (learned_values (handle_accepted n m nd).1 !! Message.proposal_id m
       = Some (Message.value m)
       ↔ (n / 2 + 1 ≤ size (counted_senders m nd))%nat)).
Proof.
  split; [reflexivity|].
  split; [intros n; split;
          [apply majority_threshold_majority
          |intros q; apply majority_threshold_least]|].
  split; [reflexivity|].
  split.
  - intros n m nd Hid. unfold ReceivePromiseSendAccept.
    rewrite bool_decide_eq_true_2 by done.
    destruct (note_accepted _ _ _) as [hid hval].
    unfold majority_threshold. case_bool_decide; simpl; split; try done.
  - intros n m nd Hnone. unfold handle_accepted, majority_threshold; simpl.
    case_bool_decide; simpl.
    + rewrite Hnone, lookup_insert_eq. done.
    + rewrite Hnone. split; [done|]. intros ?. done.
Qed.

Lemma senders_of_insert (ac : gmap Z (gmap (option string) (gset string)))
    (k : Z) (v : option string) (s : gset string)
    (inner : gmap (option string) (gset string)) :
  senders_of (<[k := <[v := s]> inner]> ac) k v = s.
Proof.
  unfold senders_of. rewrite lookup_insert_eq; simpl.
  by rewrite lookup_insert_eq.
Qed.

Lemma handle_accepted_counted (n : nat) (m : Message.t) (nd : PaxosNode) :
  counted_senders m (handle_accepted n m nd).1 = counted_senders m nd.
Proof.
  unfold counted_senders at 1. simpl. rewrite senders_of_insert.
  unfold counted_senders. case_bool_decide; set_solver.
Qed.

Lemma handle_accepted_counts (n : nat) (m : Message.t) (nd : PaxosNode) :
  counted m (handle_accepted n m nd).1.
Proof.
  unfold counted; simpl. eexists _, _.
  rewrite lookup_insert_eq. split; [reflexivity|].
  rewrite lookup_insert_eq. split; [reflexivity|].
  unfold counted_senders. case_bool_decide; set_solver.
Qed.

Lemma counted_noop (n : nat) (m : Message.t) (nd : PaxosNode) :
  counted m nd → accept_counts (handle_accepted n m nd).1 = accept_counts nd.
Proof.
  intros (inner & s & Hk & Hv & Hs & Hself). simpl.
  assert (counted_senders m nd = s) as ->.
  { unfold counted_senders, senders_of. rewrite Hk; simpl. rewrite Hv; simpl.
    case_bool_decide; set_solver. }
  rewrite Hk; simpl. rewrite (insert_id inner) by done. by apply insert_id.
Qed.

Lemma counted_preserved (n : nat) (m m' : Message.t) (nd : PaxosNode) :
  Message.msg_type m' ≠ ACCEPT →
  counted m nd → counted m (receive_message n m' nd).1.
Proof.
  intros Hty (inner & s & Hk & Hv & Hs & Hself).
  destruct (Message.msg_type m') eqn:Ht; [| | done |];
    unfold receive_message; rewrite Ht.
  - unfold ReceiveProposeSendPromise. case_bool_decide; simpl;
      by exists inner, s.
  - unfold ReceivePromiseSendAccept. case_bool_decide; simpl;
      [|by exists inner, s].
    destruct (note_accepted _ _ _) as [hid hval].
    case_bool_decide; simpl; by exists inner, s.
  - unfold counted; simpl.
    destruct (decide (Message.proposal_id m' = Message.proposal_id m))
      as [Hkk|Hkk].
    + rewrite Hkk, lookup_insert_eq, Hk; simpl.
      destruct (decide (Message.value m' = Message.value m)) as [Hvv|Hvv].
      * eexists _, _. split; [reflexivity|].
        rewrite Hvv, lookup_insert_eq. split; [reflexivity|].
        unfold counted_senders, senders_of.
        rewrite Hkk, Hk, Hvv; simpl. rewrite Hv; simpl.
        case_bool_decide; set_solver.
      * eexists _, s. split; [reflexivity|].
        by rewrite lookup_insert_ne.
    + rewrite lookup_insert_ne by done. by exists inner, s.
Qed.

Lemma deliver_all_app (n : nat) (ms1 ms2 : list Message.t) (nd : PaxosNode) :
  (deliver_all n (ms1 ++ ms2) nd).1
  = (deliver_all n ms2 (deliver_all n ms1 nd).1).1.
Proof.
  revert nd. induction ms1 as [|m ms1 IH]; intros nd; simpl; [done|].
  destruct (receive_message n m nd) as [nd1 calls].
  specialize (IH nd1).
  destruct (deliver_all n (ms1 ++ ms2) nd1) as [nd2 rest].
  destruct (deliver_all n ms1 nd1) as [nd3 rest3]. simpl in *. done.
Qed.

Lemma deliver_all_counted (n : nat) (m : Message.t) (ms : list Message.t)
    (nd : PaxosNode) :
  Forall (λ m', Message.msg_type m' ≠ ACCEPT) ms →
  counted m nd → counted m (deliver_all n ms nd).1.
Proof.
  intros Hall. revert nd.
  induction Hall as [|m' ms Hm' _ IH]; intros nd Hc; simpl; [done|].
  pose proof (counted_preserved n m m' nd Hm' Hc) as Hc1.
  destruct (receive_message n m' nd) as [nd1 calls]; simpl in Hc1.
  specialize (IH nd1 Hc1). by destruct (deliver_all n ms nd1).
Qed.

Lemma deliver_all_one (n : nat) (m : Message.t) (nd : PaxosNode) :
  (deliver_all n [m] nd).1 = (receive_message n m nd).1.
Proof. simpl. by destruct (receive_message n m nd). Qed.

Lemma handle_accepted_twice (n : nat) (m : Message.t) (nd : PaxosNode) :
  (handle_accepted n m (handle_accepted n m nd).1).1
  = (handle_accepted n m nd).1.
Proof.
  pose proof (counted_noop n m _ (handle_accepted_counts n m nd)) as Hac.
  pose proof (handle_accepted_counted n m nd) as Hcs.
  assert (learned_values (handle_accepted n m (handle_accepted n m nd).1).1
          = learned_values (handle_accepted n m nd).1) as Hl.
  { unfold handle_accepted at 1. cbn [fst learned_values]. rewrite Hcs.
    unfold handle_accepted. cbn [fst learned_values].
    case_bool_decide; [|done].
    destruct (learned_values nd !! Message.proposal_id m) eqn:Hl.
    - by rewrite Hl.
    - by rewrite lookup_insert_eq. }
  remember (handle_accepted n m nd).1 as nd1 eqn:E. clear E.
  remember (handle_accepted n m nd1).1 as nd2 eqn:E2.
  assert (node_id nd2 = node_id nd1 ∧ proposal_id nd2 = proposal_id nd1
          ∧ current_proposal_value nd2 = current_proposal_value nd1
          ∧ promises_received nd2 = promises_received nd1
          ∧ highest_accepted_id nd2 = highest_accepted_id nd1
          ∧ highest_accepted_value nd2 = highest_accepted_value nd1
          ∧ promised_proposal_id nd2 = promised_proposal_id nd1
          ∧ accepted_proposal_id nd2 = accepted_proposal_id nd1
          ∧ accepted_value nd2 = accepted_value nd1) as Hrest.
  { subst nd2. simpl. done. }
  clear E2. destruct nd1, nd2; simpl in *.
  destruct Hrest as (-> & -> & -> & -> & -> & -> & -> & -> & ->).
  by rewrite Hac, Hl.
Qed.

(** C9. Idempotent learning: a second delivery of the same ACCEPTED message
    leaves [accept_counts] as it was before that delivery, both right after
    the first delivery, where the whole node is left as it was, and after any
    deliveries in between that are not ACCEPT messages (those do not touch the
    node's own acceptance). *)
Theorem accepted_twice_idempotent (n : nat) (m : Message.t) (nd : PaxosNode) :
  Message.msg_type m = ACCEPTED →
  accept_counts (deliver_all n [m; m] nd).1
  = accept_counts (deliver_all n [m] nd).1
  ∧ (deliver_all n [m; m] nd).1 = (deliver_all n [m] nd).1
  ∧ (∀ ms : list Message.t,
      Forall (λ m', Message.msg_type m' ≠ ACCEPT) ms →
      accept_counts (deliver_all n (m :: ms ++ [m]) nd).1
      = accept_counts (deliver_all n (m :: ms) nd).1).
Proof.
  intros Ht.
  assert (∀ nd0, receive_message n m nd0 = handle_accepted n m nd0) as Hrm.
  { intros nd0. unfold receive_message. by rewrite Ht. }
  assert ((deliver_all n [m; m] nd).1 = (deliver_all n [m] nd).1) as Htwice.
  { change [m; m] with ([m] ++ [m]).
    rewrite deliver_all_app, !deliver_all_one, !Hrm.
    apply handle_accepted_twice. }
  split; [by rewrite Htwice|]. split; [done|].
  intros ms Hall.
  change (m :: ms ++ [m]) with ((m :: ms) ++ [m]).
  rewrite deliver_all_app, deliver_all_one, Hrm.
  apply counted_noop.
  change (m :: ms) with ([m] ++ ms). rewrite deliver_all_app.
  apply deliver_all_counted; [done|].
  rewrite deliver_all_one, Hrm. apply handle_accepted_counts.
Qed.

Lemma accepted_twice_idempotent_witness :
  let m := Message.mk ACCEPTED 7 "node1" "node0" (Some "x") None None in
  accept_counts (deliver_all 3 [m; m] (new_node "node0")).1
  = accept_counts (deliver_all 3 [m] (new_node "node0")).1.
Proof.
  intros m.
  exact (proj1 (accepted_twice_idempotent 3 m (new_node "node0") eq_refl)).
Defined.

(** ** The proposer's adoption of prior accepted pairs *)

(** C10. A PROMISE for the current proposal that carries an accepted id but
    no accepted value leaves the highest accepted pair of the proposer as it
    was, however high the id, and an ACCEPT broadcast at that delivery carries
    the value chosen from the pair held before; the highest accepted pair
    changes only at a PROMISE for the current proposal in which both fields
    are set and the id is above the one held. *)
Theorem promise_without_value_not_adopted (n : nat) (m : Message.t)
    (nd : PaxosNode) :
  let r := ReceivePromiseSendAccept n m nd in
  (Message.proposal_id m = proposal_id nd →
   is_Some (Message.accepted_proposal_id m) →
   Message.accepted_value m = None →
   highest_accepted_id r.1 = highest_accepted_id nd
   ∧ highest_accepted_value r.1 = highest_accepted_value nd
   ∧ ∀ a ex, Broadcast a ex ∈ r.2 →
       Message.value a
       = value_to_accept (highest_accepted_value nd) (current_proposal_value nd))
  ∧ ((highest_accepted_id r.1, highest_accepted_value r.1)
     ≠ (highest_accepted_id nd, highest_accepted_value nd) →
     ∃ i v, Message.accepted_proposal_id m = Some i
            ∧ Message.accepted_value m = Some v
            ∧ Message.proposal_id m = proposal_id nd
            ∧ i > highest_accepted_id nd
            ∧ highest_accepted_id r.1 = i
            ∧ highest_accepted_value r.1 = Some v).
Proof.
  intros r. subst r. unfold ReceivePromiseSendAccept, note_accepted. split.
  - intros Hid [i Hi] Hv. rewrite Hi, Hv.
    rewrite bool_decide_eq_true_2 by done.
    case_bool_decide; simpl; (split; [done|]); (split; [done|]);
      intros a ex Hin.
    + apply list_elem_of_singleton in Hin. by simplify_eq.
    + by apply elem_of_nil in Hin.
  - case_bool_decide as Hid; simpl; [|done].
    destruct (Message.accepted_proposal_id m) as [i|] eqn:Hi;
      destruct (Message.accepted_value m) as [v|] eqn:Hv;
      try (case_bool_decide; simpl; done).
    case_bool_decide as Hgt; repeat case_bool_decide; simpl; try done;
      intros _; exists i, v; done.
Qed.

Lemma promise_without_value_not_adopted_witness :
  let m := Message.mk PROMISE 10 "node1" "node0" None (Some 9) None in
  let nd := (propose 10 (Some "mine") (new_node "node0")).1 in
  highest_accepted_id (ReceivePromiseSendAccept 3 m nd).1 = -1
  ∧ highest_accepted_value (ReceivePromiseSendAccept 3 m nd).1 = None.
Proof.
  intros m nd.
  destruct (proj1 (promise_without_value_not_adopted 3 m nd))
    as (Hid & Hval & _); [reflexivity | by eexists | reflexivity |].
  split; [exact Hid | exact Hval].
Defined.

Lemma adopted_propose (now : Z) (own : option string) (nd : PaxosNode) :
  adopted now own [] (propose now own nd).1.
Proof. unfold adopted; simpl. done. Qed.

Lemma adopted_step (n : nat) (now : Z) (own : option string)
    (seen : list (Z * string)) (m : Message.t) (nd : PaxosNode) :
  Forall (λ p, p.1 > -1) (seen ++ pairs_seen now [m]) →
  adopted now own seen nd →
  adopted now own (seen ++ pairs_seen now [m]) (receive_message n m nd).1.
Proof.
  intros Hpos (Hid & Hown & Hnil & Hcons).
  unfold pairs_seen in *; simpl in *.
  case_bool_decide as Hm.
  2:{ simpl in *. rewrite app_nil_r in *.
      assert (proposal_id (receive_message n m nd).1 = proposal_id nd
              ∧ current_proposal_value (receive_message n m nd).1
                = current_proposal_value nd
              ∧ highest_accepted_id (receive_message n m nd).1
                = highest_accepted_id nd
              ∧ highest_accepted_value (receive_message n m nd).1
                = highest_accepted_value nd) as (E1 & E2 & E3 & E4).
      { destruct (Message.msg_type m) eqn:Ht; unfold receive_message;
          rewrite Ht.
        - unfold ReceiveProposeSendPromise. by case_bool_decide.
        - unfold ReceivePromiseSendAccept. case_bool_decide; [|done].
          exfalso. apply Hm. split; [done | congruence].
        - unfold ReceiveAcceptSendAccepted. by case_bool_decide.
        - done. }
      unfold adopted. by rewrite E1, E2, E3, E4. }
  destruct Hm as [Ht Hnow].
  unfold receive_message, ReceivePromiseSendAccept. rewrite Ht.
  rewrite bool_decide_eq_true_2 by congruence.
  unfold note_accepted, prior_pair in *.
  destruct (Message.accepted_proposal_id m) as [aid|] eqn:Haid;
    destruct (Message.accepted_value m) as [aval|] eqn:Haval; simpl in *;
    rewrite ?app_nil_r in *;
    try (case_bool_decide; simpl; unfold adopted; simpl; done).
  apply Forall_app in Hpos as [Hseen Hnew].
  rewrite Forall_singleton in Hnew. simpl in Hnew.
  case_bool_decide as Hgt; case_bool_decide; simpl; unfold adopted; simpl;
    (split; [done|]); (split; [done|]);
    (split; [by intros [_ ?]%app_eq_nil|]); intros _.
  1,2: exists aid, aval; split; [done|]; split; [done|];
       split; [set_solver|];
       intros p [Hp|Hp]%elem_of_app;
       [|apply list_elem_of_singleton in Hp; subst p; simpl; lia];
       destruct seen as [|q seen'];
       [by apply elem_of_nil in Hp|];
       destruct Hcons as (i & v & Hi & _ & _ & Hmax); [done|];
       specialize (Hmax p Hp); lia.
  1,2: destruct seen as [|q seen'];
       [destruct Hnil as [Hi _]; [done|]; lia|];
       destruct Hcons as (i & v & Hi & Hv & Hin & Hmax); [done|];
       exists i, v; split; [done|]; split; [done|];
       split; [set_solver|];
       intros p [Hp|Hp]%elem_of_app; [by apply Hmax|];
       apply list_elem_of_singleton in Hp; subst p; simpl; lia.
Qed.

Lemma pairs_seen_app (now : Z) (ms1 ms2 : list Message.t) :
  pairs_seen now (ms1 ++ ms2) = pairs_seen now ms1 ++ pairs_seen now ms2.
Proof. unfold pairs_seen. apply omap_app. Qed.

Lemma adopted_deliver_all (n : nat) (now : Z) (own : option string)
    (ms : list Message.t) (nd : PaxosNode) :
  Forall (λ p, p.1 > -1) (pairs_seen now ms) →
  adopted now own (pairs_seen now ms)
    (deliver_all n ms (propose now own nd).1).1.
Proof.
  induction ms as [|m ms IH] using rev_ind; intros Hpos.
  - apply adopted_propose.
  - rewrite pairs_seen_app in *. rewrite deliver_all_app, deliver_all_one.
    apply adopted_step; [done|]. apply IH.
    by apply Forall_app in Hpos as [? _].
Qed.

Lemma accept_broadcast_value (n : nat) (m a : Message.t)
    (ex : option string) (nd : PaxosNode) :
  Broadcast a ex ∈ (receive_message n m nd).2 →
  Message.msg_type a = ACCEPT →
  Message.proposal_id a = proposal_id nd
  ∧ Message.sender_id a = node_id nd
  ∧ Message.value a
    = value_to_accept (highest_accepted_value (receive_message n m nd).1)
        (current_proposal_value nd).
Proof.
  destruct (Message.msg_type m) eqn:Ht; unfold receive_message; rewrite Ht;
    handler_unfold; repeat case_bool_decide; simpl;
    try destruct (note_accepted _ _ _) as [hid hval]; simpl;
    repeat case_bool_decide; simpl;
    intros Hin Hty; try (by apply elem_of_nil in Hin);
    apply list_elem_of_singleton in Hin; simplify_eq; simpl in *; done.
Qed.

(** C4. Adoption rule.  A PROMISE for the current proposal that carries a
    prior accepted pair with an id above the one held makes the proposer hold
    that pair.  When a delivery makes the proposer broadcast ACCEPT, the
    message is for the current proposal; if no PROMISE since [propose]
    carried a pair, its value is the proposer's own, and otherwise it is the
    value of a pair seen whose id no pair seen exceeds.  The ids of the pairs
    are proposal ids, that is above -1, which the code keeps for "none".
    With the pairs (3, "X") and (5, "Y"), in either order, the value is
    "Y". *)
Theorem adoption_rule :
  (∀ (n : nat) (m : Message.t) (nd : PaxosNode) (i : Z) (v : string),
      Message.proposal_id m = proposal_id nd →
      prior_pair m = Some (i, v) →
      i > highest_accepted_id nd →
      highest_accepted_id (ReceivePromiseSendAccept n m nd).1 = i
      ∧ highest_accepted_value (ReceivePromiseSendAccept n m nd).1 = Some v)
  ∧ (∀ (n : nat) (now : Z) (own : option string) (nd : PaxosNode)
       (ms : list Message.t) (m a : Message.t) (ex : option string),
      Forall (λ p, p.1 > -1) (pairs_seen now (ms ++ [m])) →
      Broadcast a ex
        ∈ (receive_message n m (deliver_all n ms (propose now own nd).1).1).2 →
      Message.msg_type a = ACCEPT →
      Message.proposal_id a = now
      ∧ (pairs_seen now (ms ++ [m]) = [] → Message.value a = own)
      ∧ (pairs_seen now (ms ++ [m]) ≠ [] →
         ∃ i v, (i, v) ∈ pairs_seen now (ms ++ [m])
                ∧ (∀ p, p ∈ pairs_seen now (ms ++ [m]) → p.1 ≤ i)
                ∧ Message.value a = Some v))
  ∧ (let promise s i v :=
       Message.mk PROMISE 10 s "p" None (Some i) (Some v) in
     let nd0 := (propose 10 (Some "mine") (new_node "p")).1 in
     let accept :=
       [Broadcast (Message.mk ACCEPT 10 "p" "broadcast" (Some "Y") None None)
          (Some "p")] in
     (receive_message 3 (promise "b" 5 "Y")
        (deliver_all 3 [promise "a" 3 "X"] nd0).1).2 = accept
     ∧ (receive_message 3 (promise "b" 3 "X")
          (deliver_all 3 [promise "a" 5 "Y"] nd0).1).2 = accept).
Proof.
  split; [|split].
  - intros n m nd i v Hid Hpair Hgt.
    unfold ReceivePromiseSendAccept, note_accepted.
    unfold prior_pair in Hpair.
    destruct (Message.accepted_proposal_id m) as [aid|]; [|done].
    destruct (Message.accepted_value m) as [aval|]; [|done].
    simplify_eq. rewrite bool_decide_eq_true_2 by done.
    rewrite (bool_decide_eq_true_2 (i > _)) by done.
    by case_bool_decide.
  - intros n now own nd ms m a ex Hpos Hin Hty.
    pose proof (adopted_deliver_all n now own (ms ++ [m]) nd Hpos) as Had.
    rewrite deliver_all_app, deliver_all_one in Had.
    pose proof (adopted_deliver_all n now own ms nd) as Hbefore.
    rewrite pairs_seen_app in Hpos.
    apply Forall_app in Hpos as [Hposms _]. specialize (Hbefore Hposms).
    destruct Hbefore as (Hid0 & Hown0 & _).
    destruct (accept_broadcast_value n m a ex _ Hin Hty) as (Hpid & _ & Hval).
    destruct Had as (_ & _ & Hnil & Hcons).
    split; [congruence|]. split.
    + intros Hs. destruct (Hnil Hs) as [_ Hv]. rewrite Hval, Hv. simpl.
      exact Hown0.
    + intros Hs. destruct (Hcons Hs) as (i & v & _ & Hv & Hmem & Hmax).
      exists i, v. split; [done|]. split; [done|]. by rewrite Hval, Hv.
  - split; reflexivity.
Qed.

Lemma adoption_rule_witness :
  ∃ (i : Z) (v : string),
    (i, v) ∈ [(3, "X"%string); (5, "Y"%string)]
    ∧ (∀ p, p ∈ [(3, "X"%string); (5, "Y"%string)] → p.1 ≤ i)
    ∧ Some "Y"%string = Some v.
Proof.
  pose (promise := λ (s : string) (i : Z) (v : string),
          Message.mk PROMISE 10 s "p" None (Some i) (Some v)).
  destruct (proj1 (proj2 adoption_rule) 3%nat 10 (Some "mine"%string)
              (new_node "p") [promise "a"%string 3 "X"%string]
              (promise "b"%string 5 "Y"%string)
              (Message.mk ACCEPT 10 "p" "broadcast" (Some "Y"%string) None None)
              (Some "p"%string)) as (_ & _ & Hsome).
  - repeat constructor.
  - vm_compute. left.
  - reflexivity.
  - apply Hsome. discriminate.
Defined.

(** ** Proposal ids *)

(** C2, as the code has it.  [propose] takes the clock reading of the call as
    the proposal id, whatever ids the node has generated or observed, and
    sends it in one PREPARE broadcast to the other nodes; so the new id is
    above the previous one exactly when the reading is. *)
Theorem propose_id_is_clock_reading (now : Z) (value : option string)
    (nd : PaxosNode) :
  proposal_id (propose now value nd).1 = now
  ∧ (propose now value nd).2
    = [Broadcast (Message.mk PREPARE now (node_id nd) "broadcast" None None None)
         (Some (node_id nd))]
  ∧ (proposal_id (propose now value nd).1 > proposal_id nd
     ↔ now > proposal_id nd)
  ∧ ∀ (now' : Z) (value' : option string),
      proposal_id (propose now' value' (propose now value nd).1).1
      > proposal_id (propose now value nd).1
      ↔ now' > now.
Proof. simpl. done. Qed.

(** C2, against the claim.  Two calls at one clock reading give one node the
    same id twice; a node that has promised id 2000 and then proposes at
    reading 1000 generates an id below one it has observed; two nodes that
    propose at one reading generate the same id. *)
Lemma propose_id_not_increasing :
  let first := (propose 1000 (Some "a"%string) (new_node "node0")).1 in
  let second := (propose 1000 (Some "b"%string) first).1 in
  let prepare := Message.mk PREPARE 2000 "node1" "node0" None None None in
  let observer := (receive_message 3 prepare (new_node "node0")).1 in
  let other := (propose 1000 (Some "c"%string) (new_node "node1")).1 in
  ¬ (proposal_id second > proposal_id first)
  ∧ promised_proposal_id observer = 2000
  ∧ ¬ (proposal_id (propose 1000 (Some "a"%string) observer).1
       > promised_proposal_id observer)
  ∧ node_id other ≠ node_id first
  ∧ proposal_id other = proposal_id first.
Proof. simpl. repeat split; try done; lia. Qed.

(** ** The ACCEPTED broadcast *)

Lemma send_message_registered (ns : list PaxosNode) (m : Message.t) :
  Message.receiver_id m ∈ node_ids ns → send_message ns m = [m].
Proof. intros Hin. unfold send_message. by rewrite bool_decide_eq_true_2. Qed.

Lemma broadcast_copies_sub (ns all : list PaxosNode) (m : Message.t)
    (ex : string) :
  ns ⊆ all →
  (nd ← ns;
   if bool_decide (Some (node_id nd) ≠ Some ex)
   then send_message all (msg_copy m (node_id nd)) else [])
  = map (msg_copy m) (filter (λ r, r ≠ ex) (node_ids ns)).
Proof.
  induction ns as [|nd ns IH]; intros Hsub; [done|].
  rewrite bind_cons. rewrite IH by set_solver.
  unfold node_ids; simpl. rewrite filter_cons.
  case_bool_decide as Hne; case_decide as Hne'; try congruence; [|done].
  rewrite send_message_registered; [done|].
  simpl. apply list_elem_of_fmap. exists nd. split; [done|]. set_solver.
Qed.

Lemma broadcast_copies (ns : list PaxosNode) (m : Message.t) (ex : string) :
  broadcast ns m (Some ex)
  = map (msg_copy m) (filter (λ r, r ≠ ex) (node_ids ns)).
Proof. by apply broadcast_copies_sub. Qed.

(** C3, as the code has it.  When the ACCEPT message's id is at least the
    promised id, the network is handed one ACCEPTED message, for the
    message's id and value and from the accepting node, for each registered
    node other than the accepting node, and none for the accepting node
    itself; the accepting node counts its own acceptance when an ACCEPTED
    message for the pair it has accepted reaches it from another node. *)
Theorem accepted_broadcast_excludes_self (ns : list PaxosNode)
    (m : Message.t) (nd : PaxosNode) :
  Message.proposal_id m >= promised_proposal_id nd →
  let sent := perform_all ns (ReceiveAcceptSendAccepted m nd).2 in
  sent = map (λ r, Message.mk ACCEPTED (Message.proposal_id m) (node_id nd) r
                     (Message.value m) None None)
           (filter (λ r, r ≠ node_id nd) (node_ids ns))
  ∧ (∀ r, (∃ a, a ∈ sent ∧ Message.receiver_id a = r)
          ↔ r ∈ node_ids ns ∧ r ≠ node_id nd)
  ∧ (∀ (n : nat) (a : Message.t),
      Message.proposal_id a = Message.proposal_id m →
      Message.value a = Message.value m →
      node_id nd
      ∈ senders_of
          (accept_counts
             (handle_accepted n a (ReceiveAcceptSendAccepted m nd).1).1)
          (Message.proposal_id m) (Message.value m)).
Proof.
  intros Hge sent.
  assert (sent = map (λ r, Message.mk ACCEPTED (Message.proposal_id m)
                             (node_id nd) r (Message.value m) None None)
                   (filter (λ r, r ≠ node_id nd) (node_ids ns))) as Hsent.
  { subst sent. unfold ReceiveAcceptSendAccepted.
    rewrite bool_decide_eq_true_2 by done. simpl.
    rewrite app_nil_r. by rewrite broadcast_copies. }
  split; [exact Hsent|]. split.
  - intros r. rewrite Hsent. split.
    + intros (a & Ha & Hr). apply list_elem_of_fmap in Ha as (r' & -> & Hr').
      simpl in Hr. subst r'. by apply list_elem_of_filter in Hr' as [? ?].
    + intros [Hin Hne]. eexists. split.
      * apply list_elem_of_fmap. exists r. split; [reflexivity|].
        by apply list_elem_of_filter.
      * reflexivity.
  - intros n a Hk Hv. unfold ReceiveAcceptSendAccepted.
    rewrite bool_decide_eq_true_2 by done. simpl.
    rewrite <- Hk, <- Hv. rewrite senders_of_insert.
    unfold counted_senders; simpl.
    rewrite bool_decide_eq_true_2 by done. set_solver.
Qed.

Lemma accepted_broadcast_excludes_self_witness :
  let ns := nodes (initial ["node0"; "node1"; "node2"]%string) in
  let m := Message.mk ACCEPT 10 "node0" "node1" (Some "v"%string) None None in
  perform_all ns (ReceiveAcceptSendAccepted m (new_node "node1")).2
  = [Message.mk ACCEPTED 10 "node1" "node0" (Some "v"%string) None None;
     Message.mk ACCEPTED 10 "node1" "node2" (Some "v"%string) None None].
Proof.
  intros ns m.
  refine (eq_trans
            (proj1 (accepted_broadcast_excludes_self ns m (new_node "node1") _))
            _).
  - simpl. lia.
  - reflexivity.
Defined.

(** C3, against the claim.  In a network of three nodes, node1 accepts an
    ACCEPT message whose id is not below its promise, and no ACCEPTED message
    addressed to node1 is handed to the network. *)
Lemma accepted_not_sent_to_self :
  let ns := nodes (initial ["node0"; "node1"; "node2"]%string) in
  let nd := new_node "node1" in
  let m := Message.mk ACCEPT 10 "node0" "node1" (Some "v"%string) None None in
  nd ∈ ns
  ∧ Message.proposal_id m >= promised_proposal_id nd
  ∧ ¬ (∀ r, r ∈ node_ids ns →
         ∃ a, a ∈ perform_all ns (ReceiveAcceptSendAccepted m nd).2
              ∧ Message.msg_type a = ACCEPTED
              ∧ Message.receiver_id a = r).
Proof.
  intros ns nd m. split; [|split].
  - vm_compute. right. left.
  - simpl. lia.
  - intros Hall. destruct (Hall "node1"%string) as (a & Ha & _ & Hr).
    + vm_compute. right. left.
    + vm_compute in Ha.
      apply elem_of_cons in Ha as [->|Ha]; [done|].
      apply elem_of_cons in Ha as [->|Ha]; [done|].
      by apply elem_of_nil in Ha.
Qed.

(** * Agreement across the system *)

(** ** Lists *)




Lemma count_promises_cons (k : Z) (m : Message.t) (l : list Message.t) :
  count_promises k (m :: l)
  = ((if bool_decide (is_promise_for k m) then 1 else 0)
     + count_promises k l)%nat.
Proof.
  unfold count_promises. rewrite filter_cons.
  case_decide; case_bool_decide; done.
Qed.


Lemma count_promises_none (k : Z) (l : list Message.t) :
  (∀ m, m ∈ l → ¬ is_promise_for k m) → count_promises k l = 0%nat.
Proof.
  induction l as [|a l IH]; intros Hnone; [done|].
  unfold count_promises in *. rewrite filter_cons.
  case_decide as Ha.
  - exfalso. apply (Hnone a); [left | done].
  - apply IH. intros m Hm. apply Hnone. by right.
Qed.

Lemma elem_of_insert_inv {A : Type} (l : list A) (j : nat) (x y : A) :
  x ∈ <[j := y]> l → x = y ∨ x ∈ l.
Proof.
  intros [i Hi]%list_elem_of_lookup.
  apply list_lookup_insert_Some in Hi as [(-> & -> & _)|[_ Hi]].
  - by left.
  - right. apply list_elem_of_lookup. by exists i.
Qed.

(** ** What the network puts in transit *)

Lemma elem_of_broadcast (ns : list PaxosNode) (a m : Message.t)
    (ex : option string) :
  m ∈ broadcast ns a ex → ∃ r, m = msg_copy a r.
Proof.
  unfold broadcast. intros (nd & Hm & _)%list_elem_of_bind.
  case_bool_decide; [|by apply elem_of_nil in Hm].
  unfold send_message in Hm.
  case_bool_decide; [|by apply elem_of_nil in Hm].
  apply list_elem_of_singleton in Hm. by exists (node_id nd).
Qed.

Lemma count_promises_broadcast (k : Z) (ns : list PaxosNode) (a : Message.t)
    (ex : option string) :
  Message.msg_type a ≠ PROMISE → count_promises k (broadcast ns a ex) = 0%nat.
Proof.
  intros Hty. apply count_promises_none.
  intros m [r ->]%elem_of_broadcast [Hm _]. done.
Qed.

Lemma count_promises_send (k : Z) (ns : list PaxosNode) (p : Message.t) :
  (count_promises k (send_message ns p)
   ≤ if bool_decide (Message.proposal_id p = k) then 1 else 0)%nat.
Proof.
  unfold send_message. case_bool_decide; [|unfold count_promises; simpl; lia].
  rewrite count_promises_cons. unfold count_promises; simpl.
  case_bool_decide as Hp; case_bool_decide; simpl; try lia.
  by destruct Hp.
Qed.

Lemma perform_all_nil (ns : list PaxosNode) : perform_all ns [] = [].
Proof. done. Qed.

Lemma perform_all_one (ns : list PaxosNode) (c : NetCall) :
  perform_all ns [c] = perform ns c.
Proof. unfold perform_all. simpl. apply app_nil_r. Qed.


Lemma prepare_ok (ns : list PaxosNode) (m : Message.t) (nd : PaxosNode) :
  Message.msg_type m = PREPARE →
  handler_ok ns (Some m) nd (ReceiveProposeSendPromise m nd).
Proof.
  intros Hty. unfold handler_ok, ReceiveProposeSendPromise.
  case_bool_decide as Hgt; cbn [fst snd].
  - rewrite perform_all_one. cbn [perform]. split; [|split].
    + intros k.
      pose proof (count_promises_send k ns
        (Message.mk PROMISE (Message.proposal_id m) (node_id nd)
           (Message.sender_id m) None
           (if bool_decide (accepted_proposal_id nd ≠ -1)
            then Some (accepted_proposal_id nd) else None)
           (accepted_value nd))) as Hsend.
      cbn [Message.proposal_id] in Hsend.
      unfold node_weight, removed_promise, is_promise_for; simpl.
      repeat case_bool_decide; try lia; naive_solver.
    + intros k v Hrec. by left.
    + left. intros m' k v Hin [[Hv|Hv] _];
        unfold send_message in Hin;
        (case_bool_decide; [|by apply elem_of_nil in Hin]);
        apply list_elem_of_singleton in Hin; by subst m'.
  - rewrite perform_all_nil. split; [|split].
    + intros k. unfold count_promises; simpl. lia.
    + intros k v Hrec. by left.
    + left. intros m' k v Hin. by apply elem_of_nil in Hin.
Qed.

Lemma accept_ok (ns : list PaxosNode) (m : Message.t) (nd : PaxosNode) :
  Message.msg_type m = ACCEPT →
  handler_ok ns (Some m) nd (ReceiveAcceptSendAccepted m nd).
Proof.
  intros Hty. unfold handler_ok, ReceiveAcceptSendAccepted.
  case_bool_decide as Hge; cbn [fst snd].
  - rewrite perform_all_one. cbn [perform]. split; [|split].
    + intros k. rewrite count_promises_broadcast by done.
      unfold node_weight; simpl. lia.
    + intros k v Hrec. by left.
    + left. intros m' k v [r ->]%elem_of_broadcast (_ & Hk & Hv).
      simpl in *. unfold msg_votes. by eauto.
  - rewrite perform_all_nil. split; [|split].
    + intros k. unfold count_promises; simpl. lia.
    + intros k v Hrec. by left.
    + left. intros m' k v Hin. by apply elem_of_nil in Hin.
Qed.

Lemma accepted_ok (ns : list PaxosNode) (n : nat) (m : Message.t)
    (nd : PaxosNode) :
  Message.msg_type m = ACCEPTED →
  handler_ok ns (Some m) nd (handle_accepted n m nd).
Proof.
  intros Hty. unfold handler_ok, handle_accepted. cbn [fst snd].
  rewrite perform_all_nil. split; [|split].
  - intros k. unfold count_promises, node_weight; simpl. lia.
  - intros k v [(inner & Hk & Hv)|Hl]; simpl in *.
    + destruct (decide (k = Message.proposal_id m)) as [->|Hne].
      * rewrite lookup_insert_eq in Hk. simplify_eq.
        destruct (decide (v = Message.value m)) as [->|Hnv].
        { right. unfold msg_votes. by eauto. }
        rewrite lookup_insert_ne in Hv by done.
        left. left.
        destruct (accept_counts nd !! Message.proposal_id m) as [inner|];
          simpl in Hv.
        -- by exists inner.
        -- rewrite lookup_empty in Hv. by destruct Hv.
      * rewrite lookup_insert_ne in Hk by done. left. left. by exists inner.
    + case_bool_decide; [|by left; right].
      destruct (learned_values nd !! Message.proposal_id m) eqn:Hold;
        [by left; right|].
      destruct (decide (k = Message.proposal_id m)) as [->|Hne].
      * rewrite lookup_insert_eq in Hl. simplify_eq.
        right. unfold msg_votes. by eauto.
      * rewrite lookup_insert_ne in Hl by done. by left; right.
  - left. intros m' k v Hin. by apply elem_of_nil in Hin.
Qed.

Lemma size_add_sender (ps : gset string) (s : string) :
  (size (ps ∪ {[s]}) ≤ size ps + 1)%nat.
Proof.
  rewrite size_union_alt.
  assert (size (({[s]} : gset string) ∖ ps) ≤ size ({[s]} : gset string))%nat
    as Hle by (apply subseteq_size; set_solver).
  rewrite size_singleton in Hle. lia.
Qed.

Lemma promise_ok (ns : list PaxosNode) (m : Message.t) (nd : PaxosNode) :
  Message.msg_type m = PROMISE →
  handler_ok ns (Some m) nd (ReceivePromiseSendAccept (length ns) m nd).
Proof.
  intros Hty. unfold handler_ok, ReceivePromiseSendAccept.
  pose proof (size_add_sender (promises_received nd) (Message.sender_id m))
    as Hsize.
  case_bool_decide as Hid; cbn [fst snd].
  2:{ rewrite perform_all_nil. split; [|split].
      - intros k. unfold count_promises; simpl. lia.
      - intros k v Hrec. by left.
      - left. intros m' k v Hin. by apply elem_of_nil in Hin. }
  destruct (note_accepted _ _ _) as [hid hval].
  case_bool_decide as Hq; cbn [fst snd].
  - rewrite perform_all_one. cbn [perform]. split; [|split].
    + intros k. rewrite count_promises_broadcast by done.
      unfold node_weight; fields. rewrite size_empty.
      repeat case_bool_decide; lia.
    + intros k v Hrec. by left.
    + right.
      exists (proposal_id nd),
        (value_to_accept hval (current_proposal_value nd)).
      split.
      * intros m' k v [r ->]%elem_of_broadcast (_ & Hk & Hv). by simpl in *.
      * rewrite count_promises_broadcast by done.
        unfold node_weight, removed_promise, is_promise_for; fields.
        rewrite size_empty.
        rewrite (bool_decide_eq_true_2 (proposal_id nd = proposal_id nd))
          by done.
        rewrite (bool_decide_eq_true_2 (_ ∧ _)) by done.
        lia.
  - rewrite perform_all_nil. split; [|split].
    + intros k. unfold count_promises at 1. simpl length.
      unfold node_weight, removed_promise, is_promise_for; fields.
      destruct (decide (proposal_id nd = k)) as [Hk|Hk].
      * rewrite !(bool_decide_eq_true_2 (proposal_id nd = k)) by done.
        rewrite (bool_decide_eq_true_2 (_ ∧ _)) by (split; congruence).
        lia.
      * rewrite !(bool_decide_eq_false_2 (proposal_id nd = k)) by done. lia.
    + intros k v Hrec. by left.
    + left. intros m' k v Hin. by apply elem_of_nil in Hin.
Qed.

Lemma receive_message_ok (ns : list PaxosNode) (m : Message.t)
    (nd : PaxosNode) :
  handler_ok ns (Some m) nd (receive_message (length ns) m nd).
Proof.
  unfold receive_message. destruct (Message.msg_type m) eqn:Hty.
  - by apply prepare_ok.
  - by apply promise_ok.
  - by apply accept_ok.
  - by apply accepted_ok.
Qed.

(** ** One step of the system *)

(** The two parts of [ReceivePromiseSendAccept] make up the handler: the
    node it leaves is the node at the broadcast with the promises cleared if
    the broadcast was called, and the calls are the same. *)
Lemma receive_message_split (n : nat) (m : Message.t) (nd : PaxosNode) :
  receive_message n m nd
  = (if awaits_clear n m nd then clear_promises (begin_message n m nd).1
     else (begin_message n m nd).1,
     (begin_message n m nd).2).
Proof.
  unfold begin_message, awaits_clear.
  destruct (Message.msg_type m) eqn:Hty;
    try (rewrite bool_decide_eq_false_2 by (by intros [? _]);
         by destruct (receive_message n m nd)).
  unfold receive_message. rewrite Hty.
  unfold ReceivePromiseSendAccept, ReceivePromiseSendAccept_to_broadcast.
  case_bool_decide as Hid.
  - destruct (note_accepted _ _ _) as [hid hval].
    case_bool_decide as Hq.
    + rewrite bool_decide_eq_true_2 by done. done.
    + rewrite bool_decide_eq_false_2 by (by intros (_ & _ & ?)).
      done.
  - rewrite bool_decide_eq_false_2 by (by intros (_ & ? & _)).
    done.
Qed.

(** What holds of the node a handler leaves and of the messages it sends,
    and does not look at the promises, holds at the broadcast already. *)
Lemma begin_message_inv (Q : PaxosNode → Prop) (M : Message.t → Prop)
    (ns : list PaxosNode) (n : nat) (m : Message.t) (nd : PaxosNode) :
  (∀ x, Q (clear_promises x) → Q x) →
  Q (receive_message n m nd).1
  ∧ Forall M (perform_all ns (receive_message n m nd).2) →
  Q (begin_message n m nd).1
  ∧ Forall M (perform_all ns (begin_message n m nd).2).
Proof.
  intros HQ. rewrite receive_message_split. cbn [fst snd].
  intros [Hnd Hms]. split; [|done].
  destruct (awaits_clear n m nd); [by apply HQ | done].
Qed.

Lemma begin_message_node_id (n : nat) (m : Message.t) (nd : PaxosNode) :
  node_id (begin_message n m nd).1 = node_id nd.
Proof.
  pose proof (receive_message_node_id n m nd) as Hid.
  rewrite receive_message_split in Hid. cbn [fst] in Hid.
  by destruct (awaits_clear n m nd).
Qed.

Lemma find_node_lookup (nid : string) (ns : list PaxosNode) (j : nat)
    (nd : PaxosNode) :
  find_node nid ns = Some (j, nd) → ns !! j = Some nd ∧ node_id nd = nid.
Proof.
  unfold find_node. intros (Hj & Hid & _)%list_find_Some. done.
Qed.

(** ** The initial network *)

Lemma add_node_fresh (node : PaxosNode) (ns : list PaxosNode) :
  fresh node → Forall fresh ns → Forall fresh (add_node node ns).
Proof.
  intros Hnode. induction 1 as [|x ns Hx Hns IH]; simpl.
  - by apply Forall_singleton.
  - case_bool_decide; by constructor.
Qed.

Lemma initial_fresh (ids : list string) : Forall fresh (nodes (initial ids)).
Proof.
  unfold initial; simpl.
  assert (∀ ns, Forall fresh ns →
                Forall fresh (foldl (λ ns nid, create_node nid ns) ns ids))
    as Hgen.
  { induction ids as [|nid ids IH]; intros ns Hns; simpl; [done|].
    apply IH. apply add_node_fresh; [by exists nid | done]. }
  by apply Hgen.
Qed.

(** ** The dictionary of nodes

    The keys of [Network.nodes] are pairwise different and no step changes
    them, so the node [find_node] returns for an id is the node with that
    id. *)

Lemma add_node_ids (node : PaxosNode) (ns : list PaxosNode) (r : string) :
  r ∈ node_ids (add_node node ns) → r = node_id node ∨ r ∈ node_ids ns.
Proof.
  induction ns as [|x ns IH]; simpl.
  - intros Hr%list_elem_of_singleton. by left.
  - case_bool_decide as Hx; simpl.
    + intros [->|Hr]%elem_of_cons; [by left|]. right. by right.
    + intros [->|Hr]%elem_of_cons; [right; by left|].
      destruct (IH Hr) as [?|?]; [by left|]. right. by right.
Qed.

Lemma add_node_NoDup (node : PaxosNode) (ns : list PaxosNode) :
  NoDup (node_ids ns) → NoDup (node_ids (add_node node ns)).
Proof.
  induction ns as [|x ns IH]; simpl.
  - intros _. apply NoDup_singleton.
  - intros [Hx Hns]%NoDup_cons. case_bool_decide as Hid; simpl.
    + rewrite <- Hid. by apply NoDup_cons.
    + apply NoDup_cons. split; [|by apply IH].
      intros [Heq|Hin]%add_node_ids; [congruence | done].
Qed.

Lemma initial_NoDup (ids : list string) :
  NoDup (node_ids (nodes (initial ids))).
Proof.
  unfold initial; simpl.
  assert (∀ ns, NoDup (node_ids ns) →
                NoDup (node_ids (foldl (λ ns nid, create_node nid ns) ns ids)))
    as Hgen.
  { induction ids as [|nid ids IH]; intros ns Hns; simpl; [done|].
    apply IH. by apply add_node_NoDup. }
  apply Hgen. apply NoDup_nil_2.
Qed.

Lemma node_ids_insert (ns : list PaxosNode) (j : nat) (nd nd' : PaxosNode) :
  ns !! j = Some nd → node_id nd' = node_id nd →
  node_ids (<[j := nd']> ns) = node_ids ns.
Proof.
  revert j. induction ns as [|x ns IH]; intros j Hj Hid; [done|].
  destruct j as [|j]; simpl in *.
  - simplify_eq. by rewrite Hid.
  - f_equal. by apply IH.
Qed.

Lemma step_node_ids (ev : Event) (net : Network) :
  node_ids (nodes (step ev net)) = node_ids (nodes net).
Proof.
  destruct ev as [nid now value|i|i]; simpl.
  - destruct (find_node nid (nodes net)) as [[j nd]|] eqn:Hfind; [|done].
    apply find_node_lookup in Hfind as [Hj _].
    unfold commit; cbn [nodes]. by apply (node_ids_insert _ _ nd).
  - destruct (in_transit net !! i) as [m|]; [|done].
    destruct (find_node (Message.receiver_id m) (nodes net)) as [[j nd]|]
      eqn:Hfind; [|done].
    apply find_node_lookup in Hfind as [Hj _].
    unfold await, commit; cbn [nodes]. apply (node_ids_insert _ _ nd); [done|].
    apply begin_message_node_id.
  - destruct (awaiting_clear net !! i) as [nid|]; [|done].
    destruct (find_node nid (nodes net)) as [[j nd]|] eqn:Hfind; [|done].
    apply find_node_lookup in Hfind as [Hj _].
    unfold finish, commit; cbn [nodes fst]. by apply (node_ids_insert _ _ nd).
Qed.

Lemma run_node_ids (evs : list Event) (net : Network) :
  node_ids (nodes (run evs net)) = node_ids (nodes net).
Proof.
  revert net. induction evs as [|ev evs IH]; intros net; simpl; [done|].
  by rewrite IH, step_node_ids.
Qed.

Lemma run_NoDup (ids : list string) (evs : list Event) :
  NoDup (node_ids (nodes (run evs (initial ids)))).
Proof. rewrite run_node_ids. apply initial_NoDup. Qed.

(** ** Ids in use *)

Lemma send_message_valid (ns : list PaxosNode) (m : Message.t) :
  msg_valid m → Forall msg_valid (send_message ns m).
Proof.
  intros Hm. unfold send_message. case_bool_decide; [|done].
  by apply Forall_singleton.
Qed.

Lemma broadcast_valid (ns : list PaxosNode) (a : Message.t)
    (ex : option string) :
  (∀ r, msg_valid (msg_copy a r)) → Forall msg_valid (broadcast ns a ex).
Proof.
  intros Ha. apply Forall_forall. intros m [r ->]%elem_of_broadcast.
  apply Ha.
Qed.

Lemma propose_valid (ns : list PaxosNode) (now : Z) (value : option string)
    (nd : PaxosNode) :
  node_valid nd →
  node_valid (propose now value nd).1
  ∧ Forall msg_valid (perform_all ns (propose now value nd).2).
Proof.
  intros Hnd. split; [done|].
  unfold propose; cbn [snd]. rewrite perform_all_one. cbn [perform].
  apply broadcast_valid. intros r. by split.
Qed.

Lemma receive_message_valid (ns : list PaxosNode) (n : nat) (m : Message.t)
    (nd : PaxosNode) :
  node_valid nd → msg_valid m →
  node_valid (receive_message n m nd).1
  ∧ Forall msg_valid (perform_all ns (receive_message n m nd).2).
Proof.
  intros [Hp Ha] [Hprom Hacc].
  unfold receive_message. destruct (Message.msg_type m) eqn:Hty.
  - unfold ReceiveProposeSendPromise.
    case_bool_decide as Hgt; cbn [fst snd]; [|by rewrite perform_all_nil].
    split; [unfold node_valid; fields; lia|].
    rewrite perform_all_one. cbn [perform].
    apply send_message_valid. split; [|done]. fields. intros _.
    split; [lia|]. intros i. case_bool_decide; intros ?; simplify_eq. lia.
  - destruct (Hprom eq_refl) as [Hpid _].
    unfold ReceivePromiseSendAccept.
    case_bool_decide as Hid; cbn [fst snd]; [|by rewrite perform_all_nil].
    destruct (note_accepted _ _ _) as [hid hval].
    case_bool_decide; cbn [fst snd]; [|by rewrite perform_all_nil].
    split; [done|]. rewrite perform_all_one. cbn [perform].
    apply broadcast_valid. intros r. split; [done|]. intros _. simpl. lia.
  - specialize (Hacc eq_refl).
    unfold ReceiveAcceptSendAccepted.
    case_bool_decide as Hge; cbn [fst snd]; [|by rewrite perform_all_nil].
    split; [unfold node_valid; fields; lia|].
    rewrite perform_all_one. cbn [perform].
    apply broadcast_valid. intros r. by split.
  - unfold handle_accepted; cbn [fst snd]. by rewrite perform_all_nil.
Qed.

Lemma commit_valid (net : Network) (transit : list Message.t) (j : nat)
    (nd : PaxosNode) (r : PaxosNode * list NetCall) :
  ids_valid net →
  Forall msg_valid transit →
  node_valid r.1 ∧ Forall msg_valid (perform_all (nodes net) r.2) →
  ids_valid (commit net transit j r).
Proof.
  intros [Hns _] Htr [Hnd Hnew]. unfold commit. split; cbn [nodes in_transit].
  - apply Forall_forall. intros x [->|Hx]%elem_of_insert_inv; [done|].
    rewrite Forall_forall in Hns. by apply Hns.
  - by apply Forall_app.
Qed.

Lemma step_valid (ev : Event) (net : Network) :
  ids_valid net → ids_valid (step ev net).
Proof.
  intros Hv. pose proof Hv as [Hns Hms].
  destruct ev as [nid now value|i|i]; simpl.
  - destruct (find_node nid (nodes net)) as [[j nd]|] eqn:Hfind; [|done].
    apply find_node_lookup in Hfind as [Hj _].
    apply (commit_valid net _ j nd); [done | done |].
    apply propose_valid. rewrite Forall_forall in Hns. apply Hns.
    apply list_elem_of_lookup. by exists j.
  - destruct (in_transit net !! i) as [m|] eqn:Hi; [|done].
    assert (Forall msg_valid (delete i (in_transit net))) as Hdel.
    { apply Forall_forall. intros x Hx%list_elem_of_delete_inv.
      rewrite Forall_forall in Hms. by apply Hms. }
    destruct (find_node (Message.receiver_id m) (nodes net)) as [[j nd]|]
      eqn:Hfind; [|by split].
    apply find_node_lookup in Hfind as [Hj _]. same_view.
    apply (commit_valid net _ j nd); [done | done |].
    apply begin_message_inv; [by intros x|].
    apply receive_message_valid.
    + rewrite Forall_forall in Hns. apply Hns.
      apply list_elem_of_lookup. by exists j.
    + rewrite Forall_forall in Hms. apply Hms.
      apply list_elem_of_lookup. by exists i.
  - destruct (awaiting_clear net !! i) as [nid|]; [|done].
    destruct (find_node nid (nodes net)) as [[j nd]|] eqn:Hfind; [|done].
    apply find_node_lookup in Hfind as [Hj _]. same_view.
    apply (commit_valid net _ j nd); [done | done |].
    cbn [fst snd]. rewrite perform_all_nil. split; [|done].
    rewrite Forall_forall in Hns.
    apply (Hns nd). apply list_elem_of_lookup. by exists j.
Qed.

Lemma run_valid (ids : list string) (evs : list Event) :
  ids_valid (run evs (initial ids)).
Proof.
  assert (∀ net, ids_valid net → ids_valid (run evs net)) as Hgen.
  { induction evs as [|ev evs IH]; intros net Hnet; simpl; [done|].
    apply IH. by apply step_valid. }
  apply Hgen. split; [|by apply Forall_nil].
  eapply Forall_impl; [apply initial_fresh|].
  intros nd [nid ->]. by split.
Qed.

(** In every run, the prior accepted pairs that PROMISE messages carry have
    ids above -1: the pairs of [adoption_rule] are the pairs a proposer can
    be sent. *)
Lemma promise_pairs_are_ids (ids : list string) (evs : list Event)
    (m : Message.t) (i : Z) (v : string) :
  m ∈ in_transit (run evs (initial ids)) →
  Message.msg_type m = PROMISE →
  prior_pair m = Some (i, v) →
  i > -1.
Proof.
  intros Hin Hty Hpair. destruct (run_valid ids evs) as [_ Hms].
  rewrite Forall_forall in Hms. destruct (Hms m Hin) as [Hprom _].
  destruct (Hprom Hty) as [_ Hi]. unfold prior_pair in Hpair.
  destruct (Message.accepted_proposal_id m) as [aid|]; [|done].
  destruct (Message.accepted_value m); [|done]. simplify_eq.
  specialize (Hi i eq_refl). lia.
Qed.

(** ** Two proposals of one node at one clock reading *)

(** C1.  No-fork safety does not hold of the code.  [colliding_run] is a run
    of [run_simulation] on five nodes in which node1 proposes old at clock
    reading 500 and node0 proposes A and B, on two threads, both at clock
    reading 1000.  The PROMISE of node1, node3 and node4 for 1000 make node0
    broadcast ACCEPT for 1000 with B; the PROMISE of node2, which has accepted
    old for 500, reaches node0 on the other thread before line 174 has cleared
    the promises, and node0 broadcasts ACCEPT for 1000 again, with old.  When
    the three threads have finished, nothing is in transit, node0 has learned
    B for proposal 1000 and the four other nodes have learned old for it, and
    node0 has counted four senders of ACCEPTED for 1000 with B and four with
    old, each a majority of the five nodes. *)
Theorem colliding_run_forks :
  let net := run colliding_run (initial five_nodes) in
  let mid := run (take 29 colliding_run) (initial five_nodes) in
  let nd0 := default (new_node "") (nodes net !! 0%nat) in
  awaiting_clear mid = ["node1"; "node0"; "node0"]%string
  ∧ filter (λ m, Message.msg_type m = ACCEPT
                 ∧ Message.receiver_id m = "node1"%string) (in_transit mid)
    = [Message.mk ACCEPT 1000 "node0" "node1" (Some "B"%string) None None;
       Message.mk ACCEPT 1000 "node0" "node1" (Some "old"%string) None None]
  ∧ in_transit net = []
  ∧ awaiting_clear net = []
  ∧ map (λ nd, (node_id nd, learned_values nd !! 1000)) (nodes net)
    = [("node0"%string, Some (Some "B"%string));
       ("node1"%string, Some (Some "old"%string));
       ("node2"%string, Some (Some "old"%string));
       ("node3"%string, Some (Some "old"%string));
       ("node4"%string, Some (Some "old"%string))]
  ∧ size (senders_of (accept_counts nd0) 1000 (Some "B"%string)) = 4%nat
  ∧ size (senders_of (accept_counts nd0) 1000 (Some "old"%string)) = 4%nat
  ∧ majority_threshold (length (nodes net)) = 3%nat.
Proof.
  intros net mid nd0.
  assert (awaiting_clear mid = ["node1"; "node0"; "node0"]%string) as H1
    by (vm_compute; reflexivity).
  assert (filter (λ m, Message.msg_type m = ACCEPT
                       ∧ Message.receiver_id m = "node1"%string)
            (in_transit mid)
          = [Message.mk ACCEPT 1000 "node0" "node1" (Some "B"%string)
               None None;
             Message.mk ACCEPT 1000 "node0" "node1" (Some "old"%string)
               None None]) as H2
    by (vm_compute; reflexivity).
  assert (in_transit net = []) as H3 by (vm_compute; reflexivity).
  assert (awaiting_clear net = []) as H4 by (vm_compute; reflexivity).
  assert (map (λ nd, (node_id nd, learned_values nd !! 1000)) (nodes net)
          = [("node0"%string, Some (Some "B"%string));
             ("node1"%string, Some (Some "old"%string));
             ("node2"%string, Some (Some "old"%string));
             ("node3"%string, Some (Some "old"%string));
             ("node4"%string, Some (Some "old"%string))]) as H5
    by (vm_compute; reflexivity).
  assert (size (senders_of (accept_counts nd0) 1000 (Some "B"%string))
          = 4%nat) as H6 by (vm_compute; reflexivity).
  assert (size (senders_of (accept_counts nd0) 1000 (Some "old"%string))
          = 4%nat) as H7 by (vm_compute; reflexivity).
  assert (majority_threshold (length (nodes net)) = 3%nat) as H8
    by (vm_compute; reflexivity).
  exact (conj H1 (conj H2 (conj H3 (conj H4 (conj H5
           (conj H6 (conj H7 H8))))))).
Qed.

(** ** Agreement while the windows are kept *)






















(** [colliding_run] does not keep the windows. *)
Lemma colliding_run_opens_window :
  windows_kept colliding_run (initial five_nodes) = false.
Proof. vm_compute. reflexivity. Qed.

(** ** What a learner holds stays *)

Lemma node_records_receive (n : nat) (m : Message.t) (nd : PaxosNode)
    (k : Z) (v : option string) :
  node_records k v nd → node_records k v (receive_message n m nd).1.
Proof.
  intros [(inner & Hk & Hv)|Hl].
  - left. destruct (Message.msg_type m) eqn:Hty; unfold receive_message;
      rewrite Hty.
    + unfold ReceiveProposeSendPromise. case_bool_decide; by exists inner.
    + unfold ReceivePromiseSendAccept. case_bool_decide; [|by exists inner].
      destruct (note_accepted _ _ _) as [hid hval].
      case_bool_decide; by exists inner.
    + unfold ReceiveAcceptSendAccepted. case_bool_decide; by exists inner.
    + unfold handle_accepted; fields.
      destruct (decide (k = Message.proposal_id m)) as [->|Hne].
      * rewrite lookup_insert_eq, Hk. cbn [default from_option id].
        eexists. split; [reflexivity|].
        destruct (decide (v = Message.value m)) as [->|Hnv].
        -- rewrite lookup_insert_eq. by eexists.
        -- by rewrite lookup_insert_ne.
      * rewrite lookup_insert_ne by done. by exists inner.
  - right. by apply receive_message_learned_keeps.
Qed.

(** * Further properties of the code *)

(** ** The learner's counts only grow *)

Lemma senders_of_receive (n : nat) (m : Message.t) (nd : PaxosNode) (k : Z)
    (v : option string) :
  senders_of (accept_counts nd) k v
  ⊆ senders_of (accept_counts (receive_message n m nd).1) k v.
Proof.
  destruct (Message.msg_type m) eqn:Hty; unfold receive_message; rewrite Hty.
  - unfold ReceiveProposeSendPromise. by case_bool_decide.
  - unfold ReceivePromiseSendAccept. case_bool_decide; [|done].
    destruct (note_accepted _ _ _) as [hid hval]. by case_bool_decide.
  - unfold ReceiveAcceptSendAccepted. by case_bool_decide.
  - unfold handle_accepted; fields.
    destruct (decide (k = Message.proposal_id m)) as [->|Hk].
    + destruct (decide (v = Message.value m)) as [->|Hv].
      * rewrite senders_of_insert. unfold counted_senders.
        case_bool_decide; set_solver.
      * unfold senders_of at 2. rewrite lookup_insert_eq.
        cbn [default from_option id]. by rewrite lookup_insert_ne.
    + unfold senders_of at 2. by rewrite lookup_insert_ne.
Qed.

(** X1. Whatever messages are delivered to a node, in any order, the set of
    senders its learner holds for a proposal id and a value never loses a
    member; [propose] leaves the sets as they are. *)
Theorem accept_counts_grow (n : nat) (ms : list Message.t) (nd : PaxosNode)
    (k : Z) (v : option string) :
  senders_of (accept_counts nd) k v
  ⊆ senders_of (accept_counts (deliver_all n ms nd).1) k v
  ∧ ∀ now value,
      senders_of (accept_counts (propose now value nd).1) k v
      = senders_of (accept_counts nd) k v.
Proof.
  split; [|done].
  revert nd. induction ms as [|m ms IH]; intros nd; [done|].
  change (m :: ms) with ([m] ++ ms). rewrite deliver_all_app, deliver_all_one.
  etrans; [apply (senders_of_receive n m)|apply IH].
Qed.

(** ** Roles *)

(** X2. The dispatch keeps the three roles apart.  No message changes the
    node id.  The acceptor fields change only at a PREPARE or an ACCEPT
    message, the proposer fields only at a PROMISE message, the learner
    fields only at an ACCEPTED message; an ACCEPTED message makes the node
    send nothing, and a PROMISE for an id other than the current proposal
    changes nothing and sends nothing.  [propose] leaves the acceptor and
    learner fields as they are. *)
Theorem roles_kept_apart (n : nat) (m : Message.t) (nd : PaxosNode) :
  let r := receive_message n m nd in
  node_id r.1 = node_id nd
  ∧ (Message.msg_type m ≠ PREPARE → Message.msg_type m ≠ ACCEPT →
     promised_proposal_id r.1 = promised_proposal_id nd
     ∧ accepted_proposal_id r.1 = accepted_proposal_id nd
     ∧ accepted_value r.1 = accepted_value nd)
  ∧ (Message.msg_type m ≠ PROMISE →
     proposal_id r.1 = proposal_id nd
     ∧ current_proposal_value r.1 = current_proposal_value nd
     ∧ promises_received r.1 = promises_received nd
     ∧ highest_accepted_id r.1 = highest_accepted_id nd
     ∧ highest_accepted_value r.1 = highest_accepted_value nd)
  ∧ (Message.msg_type m ≠ ACCEPTED →
     learned_values r.1 = learned_values nd
     ∧ accept_counts r.1 = accept_counts nd)
  ∧ (Message.msg_type m = ACCEPTED → r.2 = [])
  ∧ (Message.msg_type m = PROMISE →
     Message.proposal_id m ≠ proposal_id nd → r = (nd, []))
  ∧ (∀ now value,
      promised_proposal_id (propose now value nd).1 = promised_proposal_id nd
      ∧ accepted_proposal_id (propose now value nd).1 = accepted_proposal_id nd
      ∧ accepted_value (propose now value nd).1 = accepted_value nd
      ∧ learned_values (propose now value nd).1 = learned_values nd
      ∧ accept_counts (propose now value nd).1 = accept_counts nd).
Proof.
  intros r. subst r. split; [apply receive_message_node_id|].
  unfold receive_message.
  destruct (Message.msg_type m) eqn:Hty.
  - unfold ReceiveProposeSendPromise. case_bool_decide; simpl; naive_solver.
  - unfold ReceivePromiseSendAccept. case_bool_decide; simpl;
      [|naive_solver].
    destruct (note_accepted _ _ _) as [hid hval].
    case_bool_decide; simpl; naive_solver.
  - unfold ReceiveAcceptSendAccepted. case_bool_decide; simpl; naive_solver.
  - unfold handle_accepted. cbn [fst snd]. fields. naive_solver.
Qed.

(** ** The network's dictionary and its broadcast *)

Lemma broadcast_sub (ns all : list PaxosNode) (m : Message.t)
    (ex : option string) :
  ns ⊆ all →
  (nd ← ns;
   if bool_decide (Some (node_id nd) ≠ ex)
   then send_message all (msg_copy m (node_id nd)) else [])
  = map (msg_copy m) (filter (λ r, Some r ≠ ex) (node_ids ns)).
Proof.
  induction ns as [|nd ns IH]; intros Hsub; [done|].
  rewrite bind_cons. rewrite IH by set_solver.
  unfold node_ids; simpl. rewrite filter_cons.
  case_bool_decide as Hne; case_decide as Hne'; try done.
  rewrite send_message_registered; [done|].
  simpl. apply list_elem_of_fmap. exists nd. split; [done|]. set_solver.
Qed.

Lemma filter_all {A : Type} (P : A → Prop) `{∀ x, Decision (P x)}
    (l : list A) :
  (∀ x, x ∈ l → P x) → filter P l = l.
Proof.
  induction l as [|a l IH]; intros Hall; [done|].
  rewrite filter_cons. rewrite decide_True by (apply Hall; left).
  f_equal. apply IH. intros x Hx. apply Hall. by right.
Qed.

Lemma length_filter_ne (l : list string) (x : string) :
  NoDup l → x ∈ l →
  (length (filter (λ r, Some r ≠ Some x) l) + 1 = length l)%nat.
Proof.
  induction l as [|a l IH]; intros Hnd Hx; [by apply elem_of_nil in Hx|].
  apply NoDup_cons in Hnd as [Ha Hnd]. rewrite filter_cons.
  apply elem_of_cons in Hx as [->|Hx].
  - rewrite decide_False by (intros Hne; by apply Hne).
    rewrite filter_all; [simpl; lia|].
    intros r Hr Heq. simplify_eq. done.
  - rewrite decide_True by (intros Heq; simplify_eq; done).
    simpl. specialize (IH Hnd Hx). lia.
Qed.

(** X3. [broadcast] hands the network one copy of the message for each
    registered node other than [exclude], in the order of the dictionary;
    a copy differs from the message in its receiver only.  With no
    [exclude], or one that is not registered, there are as many copies as
    nodes; with a registered [exclude] and pairwise different keys there is
    one copy less. *)
Theorem broadcast_copies_all (ns : list PaxosNode) (m : Message.t)
    (ex : option string) :
  broadcast ns m ex
  = map (msg_copy m) (filter (λ r, Some r ≠ ex) (node_ids ns))
  ∧ (∀ a, a ∈ broadcast ns m ex →
       Message.msg_type a = Message.msg_type m
       ∧ Message.proposal_id a = Message.proposal_id m
       ∧ Message.sender_id a = Message.sender_id m
       ∧ Message.value a = Message.value m
       ∧ Message.accepted_proposal_id a = Message.accepted_proposal_id m
       ∧ Message.accepted_value a = Message.accepted_value m
       ∧ Message.receiver_id a ∈ node_ids ns
       ∧ Some (Message.receiver_id a) ≠ ex)
  ∧ ((∀ x, ex = Some x → x ∉ node_ids ns) →
     length (broadcast ns m ex) = length ns)
  ∧ (∀ x, ex = Some x → x ∈ node_ids ns → NoDup (node_ids ns) →
     (length (broadcast ns m ex) + 1 = length ns)%nat).
Proof.
  assert (broadcast ns m ex
          = map (msg_copy m) (filter (λ r, Some r ≠ ex) (node_ids ns)))
    as Heq by (by apply broadcast_sub).
  split; [exact Heq|]. rewrite Heq. split; [|split].
  - intros a (r & -> & Hr)%list_elem_of_fmap.
    apply list_elem_of_filter in Hr as [Hne Hin]. simpl. done.
  - intros Hex. rewrite length_map, filter_all.
    + unfold node_ids. by rewrite length_map.
    + intros r Hr Heq'. by apply (Hex r).
  - intros x -> Hin Hnd. rewrite length_map.
    rewrite (length_filter_ne _ x Hnd Hin).
    unfold node_ids. by rewrite length_map.
Qed.

Lemma find_node_cons (nid : string) (x : PaxosNode) (ns : list PaxosNode) :
  find_node nid (x :: ns)
  = if decide (node_id x = nid) then Some (0%nat, x)
    else prod_map S id <$> find_node nid ns.
Proof. done. Qed.

Lemma add_node_length (node : PaxosNode) (ns : list PaxosNode) :
  length (add_node node ns)
  = if bool_decide (node_id node ∈ node_ids ns) then length ns
    else S (length ns).
Proof.
  induction ns as [|x ns IH]; [simpl; done|]. cbn [add_node].
  assert (node_ids (x :: ns) = node_id x :: node_ids ns) as -> by done.
  destruct (decide (node_id x = node_id node)) as [Hx|Hx];
    [rewrite (bool_decide_eq_true_2 _ Hx)
    |rewrite (bool_decide_eq_false_2 _ Hx)]; cbn [length].
  - rewrite bool_decide_eq_true_2; [done|]. rewrite Hx. by left.
  - rewrite IH. destruct (decide (node_id node ∈ node_ids ns)) as [Hin|Hin].
    + rewrite !bool_decide_eq_true_2; [done | by right | done].
    + rewrite !bool_decide_eq_false_2; [done | | done].
      intros [?|?]%elem_of_cons; [congruence | done].
Qed.

(** X4. [add_node] is a dictionary assignment.  Looking up the id of the
    node just added gives that node; looking up any other id gives what it
    gave before, at the same place; the number of nodes grows by one if the
    id is new, and a node registered under an id already in use replaces the
    old one, so the number stays; pairwise different keys stay pairwise
    different. *)
Theorem add_node_lookup (node : PaxosNode) (ns : list PaxosNode) :
  (∃ j, find_node (node_id node) (add_node node ns) = Some (j, node))
  ∧ (∀ nid, nid ≠ node_id node →
       find_node nid (add_node node ns) = find_node nid ns)
  ∧ length (add_node node ns)
    = (if bool_decide (node_id node ∈ node_ids ns) then length ns
       else S (length ns))
  ∧ (NoDup (node_ids ns) → NoDup (node_ids (add_node node ns))).
Proof.
  split; [|split; [|split]].
  - induction ns as [|x ns [j IH]]; cbn [add_node].
    + exists 0%nat. rewrite find_node_cons. by rewrite decide_True.
    + case_bool_decide as Hx.
      * exists 0%nat. rewrite find_node_cons. by rewrite decide_True.
      * exists (S j). rewrite find_node_cons, decide_False by done.
        by rewrite IH.
  - intros nid Hne. induction ns as [|x ns IH]; cbn [add_node].
    + rewrite find_node_cons. by rewrite decide_False.
    + case_bool_decide as Hx.
      * rewrite !find_node_cons.
        rewrite !decide_False by congruence. done.
      * rewrite !find_node_cons. case_decide; [done|]. by rewrite IH.
  - apply add_node_length.
  - apply add_node_NoDup.
Qed.

Lemma add_node_ids_back (node : PaxosNode) (ns : list PaxosNode) (r : string) :
  r = node_id node ∨ r ∈ node_ids ns → r ∈ node_ids (add_node node ns).
Proof.
  induction ns as [|x ns IH]; cbn [add_node].
  - intros [->|Hin]; [by left | by apply elem_of_nil in Hin].
  - assert (node_ids (x :: ns) = node_id x :: node_ids ns) as -> by done.
    destruct (decide (node_id x = node_id node)) as [Hx|Hx];
      [rewrite (bool_decide_eq_true_2 _ Hx)
      |rewrite (bool_decide_eq_false_2 _ Hx)].
    + intros [->|[->|Hin]%elem_of_cons].
      * by left.
      * rewrite Hx. by left.
      * by right.
    + intros [->|[->|Hin]%elem_of_cons].
      * right. apply IH. by left.
      * by left.
      * right. apply IH. by right.
Qed.

Lemma initial_ids (ids : list string) (nid : string) :
  nid ∈ node_ids (nodes (initial ids)) ↔ nid ∈ ids.
Proof.
  unfold initial; cbn [nodes].
  assert (∀ ns, nid ∈ node_ids (foldl (λ ns nid, create_node nid ns) ns ids)
                ↔ nid ∈ node_ids ns ∨ nid ∈ ids) as Hgen.
  { induction ids as [|x ids IH]; intros ns; cbn [foldl].
    - split; [by left|]. intros [?|?%elem_of_nil]; done.
    - rewrite IH. unfold create_node. split.
      + intros [Hin|Hin]; [|right; by right].
        apply add_node_ids in Hin as [->|Hin]; [right; by left | by left].
      + intros [Hin|[->|Hin]%elem_of_cons].
        * left. apply add_node_ids_back. by right.
        * left. apply add_node_ids_back. by left.
        * by right. }
  rewrite Hgen. split; [intros [?%elem_of_nil|?]; done | by right].
Qed.

(** X5. Membership is fixed for a run: no [propose] call and no delivery
    adds, removes, renames or reorders a node, and the ids of the nodes
    created by [create_node] are pairwise different. *)
Theorem membership_fixed (ids : list string) (evs : list Event) :
  node_ids (nodes (run evs (initial ids))) = node_ids (nodes (initial ids))
  ∧ length (nodes (run evs (initial ids))) = length (nodes (initial ids))
  ∧ NoDup (node_ids (nodes (run evs (initial ids))))
  ∧ (∀ nid, nid ∈ node_ids (nodes (run evs (initial ids))) ↔ nid ∈ ids).
Proof.
  pose proof (run_node_ids evs (initial ids)) as Hids.
  split; [done|]. split; [|split; [apply run_NoDup|]].
  - apply (f_equal length) in Hids. unfold node_ids in Hids.
    by rewrite !length_map in Hids.
  - intros nid. rewrite Hids. apply initial_ids.
Qed.

(** ** Addresses of the messages in transit *)

Lemma broadcast_wf (ns : list PaxosNode) (a : Message.t) (x : string) :
  Message.sender_id a = x → x ∈ node_ids ns →
  Forall (well_addressed (node_ids ns)) (broadcast ns a (Some x)).
Proof.
  intros Hs Hx. apply Forall_forall. intros c Hc.
  destruct (proj1 (proj2 (broadcast_copies_all ns a (Some x))) c Hc)
    as (_ & _ & Hsender & _ & _ & _ & Hr & Hne).
  unfold well_addressed. rewrite Hsender, Hs.
  split; [done|]. split; [done|]. intros Heq. apply Hne. by rewrite Heq.
Qed.

Lemma senders_of_handle_accepted (n : nat) (m : Message.t) (nd : PaxosNode)
    (k : Z) (v : option string) :
  senders_of (accept_counts (handle_accepted n m nd).1) k v
  = if decide (k = Message.proposal_id m ∧ v = Message.value m)
    then counted_senders m nd
    else senders_of (accept_counts nd) k v.
Proof.
  unfold handle_accepted; fields. case_decide as Hkv.
  - destruct Hkv as [-> ->]. apply senders_of_insert.
  - destruct (decide (k = Message.proposal_id m)) as [->|Hk].
    + unfold senders_of at 1. rewrite lookup_insert_eq.
      cbn [default from_option id]. rewrite lookup_insert_ne; [done|].
      intros Hv. apply Hkv. by split.
    + unfold senders_of at 1. by rewrite lookup_insert_ne.
Qed.

Lemma propose_wf (ns : list PaxosNode) (now : Z) (value : option string)
    (nd : PaxosNode) :
  node_wf (node_ids ns) nd →
  node_wf (node_ids ns) (propose now value nd).1
  ∧ Forall (well_addressed (node_ids ns))
      (perform_all ns (propose now value nd).2).
Proof.
  intros (Hid & Hps & Hac). split.
  - split; [done|]. split; [|done]. unfold propose; fields. set_solver.
  - unfold propose; cbn [snd]. rewrite perform_all_one. cbn [perform].
    by apply broadcast_wf.
Qed.

Lemma receive_message_wf (ns : list PaxosNode) (n : nat) (m : Message.t)
    (nd : PaxosNode) :
  node_wf (node_ids ns) nd →
  well_addressed (node_ids ns) m →
  Message.receiver_id m = node_id nd →
  node_wf (node_ids ns) (receive_message n m nd).1
  ∧ Forall (well_addressed (node_ids ns))
      (perform_all ns (receive_message n m nd).2).
Proof.
  intros (Hid & Hps & Hac) (Hr & Hs & Hne) Hrecv.
  unfold receive_message. destruct (Message.msg_type m) eqn:Hty.
  - unfold ReceiveProposeSendPromise.
    case_bool_decide; cbn [fst snd]; [|by rewrite perform_all_nil].
    split; [done|]. rewrite perform_all_one. cbn [perform].
    unfold send_message. case_bool_decide; [|done].
    apply Forall_singleton. unfold well_addressed; fields.
    split; [done|]. split; [done|]. congruence.
  - unfold ReceivePromiseSendAccept.
    case_bool_decide; cbn [fst snd]; [|by rewrite perform_all_nil].
    destruct (note_accepted _ _ _) as [hid hval].
    case_bool_decide; cbn [fst snd].
    + split.
      * split; [done|]. split; [|done]. fields. set_solver.
      * rewrite perform_all_one. cbn [perform]. by apply broadcast_wf.
    + rewrite perform_all_nil. split; [|done].
      split; [done|]. split; [|done]. fields.
      unfold peers in *. apply union_subseteq. split; [done|].
      apply singleton_subseteq_l. apply elem_of_difference. split.
      * by apply elem_of_list_to_set.
      * rewrite elem_of_singleton. congruence.
  - unfold ReceiveAcceptSendAccepted.
    case_bool_decide; cbn [fst snd]; [|by rewrite perform_all_nil].
    split; [done|]. rewrite perform_all_one. cbn [perform].
    by apply broadcast_wf.
  - split; [|by unfold handle_accepted; cbn [snd]; rewrite perform_all_nil].
    split; [done|]. split; [done|]. intros k v.
    rewrite senders_of_handle_accepted. case_decide as Hkv; [|apply Hac].
    destruct Hkv as [-> ->]. unfold counted_senders.
    pose proof (Hac (Message.proposal_id m) (Message.value m)) as Hold.
    assert (Message.sender_id m ∈ (list_to_set (node_ids ns) : gset string))
      by (by apply elem_of_list_to_set).
    assert (node_id nd ∈ (list_to_set (node_ids ns) : gset string))
      by (by apply elem_of_list_to_set).
    case_bool_decide; set_solver.
Qed.

Lemma commit_wf (net : Network) (transit : list Message.t) (j : nat)
    (nd : PaxosNode) (r : PaxosNode * list NetCall) :
  wf net →
  nodes net !! j = Some nd →
  node_id r.1 = node_id nd →
  Forall (well_addressed (node_ids (nodes net))) transit →
  node_wf (node_ids (nodes net)) r.1
  ∧ Forall (well_addressed (node_ids (nodes net)))
      (perform_all (nodes net) r.2) →
  wf (commit net transit j r).
Proof.
  intros [_ Hns] Hj Hid Htr [Hnd Hnew]. unfold wf, commit.
  cbn [nodes in_transit]. rewrite (node_ids_insert _ _ nd) by done. split.
  - by apply Forall_app.
  - apply Forall_forall. intros x [->|Hx]%elem_of_insert_inv; [done|].
    rewrite Forall_forall in Hns. by apply Hns.
Qed.

Lemma begin_message_wf (ns : list PaxosNode) (n : nat) (m : Message.t)
    (nd : PaxosNode) :
  node_wf (node_ids ns) nd →
  well_addressed (node_ids ns) m →
  Message.receiver_id m = node_id nd →
  node_wf (node_ids ns) (begin_message n m nd).1
  ∧ Forall (well_addressed (node_ids ns))
      (perform_all ns (begin_message n m nd).2).
Proof.
  intros Hnd Hm Hrecv.
  destruct (receive_message_wf ns n m nd Hnd Hm Hrecv) as [Hwf Hnew].
  rewrite receive_message_split in Hwf, Hnew. cbn [fst snd] in Hwf, Hnew.
  split; [|done].
  destruct (awaits_clear n m nd) eqn:Haw; [|done].
  destruct Hwf as (Hid & _ & Hac). split; [done|]. split; [|done].
  apply bool_decide_eq_true in Haw as (Hty & Hpid & _).
  destruct Hnd as (_ & Hps & _). destruct Hm as (_ & Hs & Hne).
  unfold begin_message. rewrite Hty.
  unfold ReceivePromiseSendAccept_to_broadcast.
  rewrite bool_decide_eq_true_2 by done.
  destruct (note_accepted _ _ _) as [hid hval].
  assert (promises_received nd ∪ {[Message.sender_id m]}
          ⊆ peers (node_ids ns) (node_id nd)) as Hsub.
  { unfold peers in *. apply union_subseteq. split; [done|].
    apply singleton_subseteq_l. apply elem_of_difference. split.
    - by apply elem_of_list_to_set.
    - rewrite elem_of_singleton. congruence. }
  by case_bool_decide.
Qed.

Lemma step_wf (ev : Event) (net : Network) : wf net → wf (step ev net).
Proof.
  intros Hwf. pose proof Hwf as [Hms Hns].
  rewrite Forall_forall in Hns.
  destruct ev as [nid now value|i|i]; simpl.
  - destruct (find_node nid (nodes net)) as [[j nd]|] eqn:Hfind; [|done].
    apply find_node_lookup in Hfind as [Hj _].
    apply (commit_wf net _ j nd); [done | done | done | done |].
    apply propose_wf. apply Hns. apply list_elem_of_lookup. by exists j.
  - destruct (in_transit net !! i) as [m|] eqn:Hi; [|done].
    assert (Forall (well_addressed (node_ids (nodes net)))
              (delete i (in_transit net))) as Hdel.
    { apply Forall_forall. intros x Hx%list_elem_of_delete_inv.
      rewrite Forall_forall in Hms. by apply Hms. }
    destruct (find_node (Message.receiver_id m) (nodes net)) as [[j nd]|]
      eqn:Hfind.
    + apply find_node_lookup in Hfind as [Hj Hid]. same_view.
      apply (commit_wf net _ j nd); [done | done | | done |].
      * apply begin_message_node_id.
      * apply begin_message_wf; [|  |done].
        -- apply Hns. apply list_elem_of_lookup. by exists j.
        -- rewrite Forall_forall in Hms. apply Hms.
           apply list_elem_of_lookup. by exists i.
    + split; [done|]. by apply Forall_forall.
  - destruct (awaiting_clear net !! i) as [nid|]; [|done].
    destruct (find_node nid (nodes net)) as [[j nd]|] eqn:Hfind; [|done].
    apply find_node_lookup in Hfind as [Hj _]. same_view.
    apply (commit_wf net _ j nd); [done | done | done | done |].
    cbn [fst snd]. rewrite perform_all_nil. split; [|done].
    destruct (Hns nd) as (Hid & _ & Hac);
      [apply list_elem_of_lookup; by exists j|].
    split; [done|]. split; [|done]. unfold clear_promises; fields.
    set_solver.
Qed.

Lemma run_wf (ids : list string) (evs : list Event) :
  wf (run evs (initial ids)).
Proof.
  assert (∀ net, wf net → wf (run evs net)) as Hgen.
  { induction evs as [|ev evs IH]; intros net Hnet; simpl; [done|].
    apply IH. by apply step_wf. }
  apply Hgen. split; [by apply Forall_nil|].
  apply Forall_forall. intros nd Hnd.
  pose proof (initial_fresh ids) as Hfresh. rewrite Forall_forall in Hfresh.
  assert (node_id nd ∈ node_ids (nodes (initial ids))) as Hid.
  { unfold node_ids. apply list_elem_of_fmap. by exists nd. }
  destruct (Hfresh nd Hnd) as [nid ->].
  split; [done|]. split; [simpl; set_solver|].
  intros k v. unfold senders_of, new_node; fields.
  rewrite lookup_empty. cbn [default from_option id].
  rewrite lookup_empty. cbn [default from_option id]. set_solver.
Qed.

(** X6. In every run, each message in transit goes from a registered node
    to another registered node, so no node is sent a message of its own and
    the delivery of a message in transit always finds its receiver. *)
Theorem messages_well_addressed (ids : list string) (evs : list Event) :
  let net := run evs (initial ids) in
  Forall (well_addressed (node_ids (nodes net))) (in_transit net)
  ∧ ∀ i m, in_transit net !! i = Some m →
      ∃ j nd, find_node (Message.receiver_id m) (nodes net) = Some (j, nd)
              ∧ node_id nd = Message.receiver_id m
              ∧ node_id nd ≠ Message.sender_id m.
Proof.
  intros net. destruct (run_wf ids evs) as [Hms _]. fold net in Hms.
  split; [done|]. intros i m Hi.
  rewrite Forall_forall in Hms.
  destruct (Hms m) as (Hr & _ & Hne);
    [apply list_elem_of_lookup; by exists i|].
  apply list_elem_of_fmap in Hr as (nd0 & Hid0 & Hnd0).
  destruct (list_find_elem_of (λ nd, node_id nd = Message.receiver_id m)
              (nodes net) nd0 Hnd0 (eq_sym Hid0)) as [[j nd] Hfind].
  exists j, nd. split; [done|].
  apply find_node_lookup in Hfind as [_ Hid]. split; [done | congruence].
Qed.

(** ** Promises come from peers *)

Lemma size_peers (ids : list string) (x : string) :
  NoDup ids → x ∈ ids → (size (peers ids x) + 1 = length ids)%nat.
Proof.
  intros Hnd Hx. unfold peers.
  rewrite size_difference
    by (apply singleton_subseteq_l; by apply elem_of_list_to_set).
  rewrite size_singleton, size_list_to_set by done.
  assert (0 < length ids)%nat; [|lia].
  destruct ids; [by apply elem_of_nil in Hx | simpl; lia].
Qed.

Lemma quorum_needs_three (n : nat) :
  (majority_threshold n + 1 ≤ n)%nat → (3 ≤ n)%nat.
Proof.
  unfold majority_threshold. intros Hq.
  destruct n as [|[|[|n]]]; simpl in *; lia.
Qed.

(** X7. The proposer does not promise to itself.  In every run, the promises
    a node holds come from registered nodes other than itself, so they are at
    most one less than the number of nodes; a node can hold a majority of
    them only in a network of three nodes or more. *)
Theorem promises_from_peers (ids : list string) (evs : list Event)
    (nd : PaxosNode) :
  let net := run evs (initial ids) in
  nd ∈ nodes net →
  (node_id nd ∉ promises_received nd)
  ∧ (∀ s, s ∈ promises_received nd → s ∈ ids)
  ∧ (size (promises_received nd) + 1 ≤ length (nodes net))%nat
  ∧ ((majority_threshold (length (nodes net)) ≤ size (promises_received nd))%nat
     → (3 ≤ length (nodes net))%nat).
Proof.
  intros net Hnd. destruct (run_wf ids evs) as [_ Hns]. fold net in Hns.
  rewrite Forall_forall in Hns. destruct (Hns nd Hnd) as (Hid & Hps & _).
  destruct (membership_fixed ids evs) as (_ & _ & Hnodup & Hmem).
  fold net in Hnodup, Hmem.
  pose proof (size_peers _ _ Hnodup Hid) as Hsize.
  pose proof (subseteq_size _ _ Hps) as Hle.
  assert (length (node_ids (nodes net)) = length (nodes net)) as Hlen
    by (unfold node_ids; apply length_map).
  split; [unfold peers in Hps; set_solver|]. split; [|split].
  - intros s Hs. apply Hmem. apply Hps in Hs. unfold peers in Hs.
    apply elem_of_difference in Hs as [Hs _].
    by apply elem_of_list_to_set in Hs.
  - lia.
  - intros Hq. apply quorum_needs_three. lia.
Qed.

Lemma promises_from_peers_witness :
  let ids := ["node0"; "node1"; "node2"]%string in
  let evs := Propose "node0" 100 (Some "alpha"%string)
             :: replicate 3 (Deliver 0) in
  let net := run evs (initial ids) in
  let nd := default (new_node "") (nodes net !! 0%nat) in
  nd ∈ nodes net
  ∧ elements (promises_received nd) = ["node1"%string]
  ∧ (node_id nd ∉ promises_received nd).
Proof.
  intros ids evs net nd.
  assert (nd ∈ nodes net) as Hnd.
  { apply list_elem_of_lookup. exists 0%nat. vm_compute. reflexivity. }
  assert (elements (promises_received nd) = ["node1"%string]) as Hel.
  { vm_compute. reflexivity. }
  exact (conj Hnd (conj Hel (proj1 (promises_from_peers ids evs nd Hnd)))).
Defined.

(** ** Networks of one or two nodes *)

Lemma small_no_quorum (n : nat) (ps : gset string) :
  (n ≤ 2)%nat → (size ps + 1 ≤ n)%nat →
  ¬ ((majority_threshold n ≤ size ps)%nat).
Proof.
  unfold majority_threshold. intros Hn Hps Hq.
  destruct n as [|[|[|n]]]; simpl in *; lia.
Qed.

Lemma step_undecided (ev : Event) (net : Network) :
  wf net → NoDup (node_ids (nodes net)) →
  (length (nodes net) ≤ 2)%nat →
  undecided net → undecided (step ev net).
Proof.
  intros [Hms Hns] Hnodup Hsmall Hund. pose proof Hund as [Hum Hun].
  rewrite Forall_forall in Hns. rewrite Forall_forall in Hms.
  rewrite Forall_forall in Hum. rewrite Forall_forall in Hun.
  assert (∀ transit j r,
            (∀ x, x ∈ transit → x ∈ in_transit net) →
            learned_values r.1 = ∅ ∧ accept_counts r.1 = ∅ →
            (∀ x, x ∈ perform_all (nodes net) r.2 →
                  Message.msg_type x ≠ ACCEPT ∧ Message.msg_type x ≠ ACCEPTED) →
            undecided (commit net transit j r)) as Hcommit.
  { intros transit j r Hsub Hr Hnew. unfold undecided, commit.
    cbn [nodes in_transit]. split; apply Forall_forall.
    - intros x [Hx|Hx]%elem_of_app; [apply Hum; by apply Hsub | by apply Hnew].
    - intros x [->|Hx]%elem_of_insert_inv; [done | by apply Hun]. }
  destruct ev as [nid now value|i|i]; simpl.
  - destruct (find_node nid (nodes net)) as [[j nd]|] eqn:Hfind; [|done].
    apply find_node_lookup in Hfind as [Hj _].
    assert (nd ∈ nodes net) as Hnd by (apply list_elem_of_lookup; by exists j).
    apply Hcommit; [done | exact (Hun nd Hnd) |].
    unfold propose; cbn [snd]. rewrite perform_all_one. cbn [perform].
    intros x [r ->]%elem_of_broadcast. by split.
  - destruct (in_transit net !! i) as [m|] eqn:Hi; [|done].
    assert (m ∈ in_transit net) as Hm by (apply list_elem_of_lookup; by exists i).
    destruct (Hum m Hm) as [Hna Hnd'].
    destruct (find_node (Message.receiver_id m) (nodes net)) as [[j nd]|]
      eqn:Hfind.
    2:{ split; apply Forall_forall; [|done].
        intros x Hx%list_elem_of_delete_inv. by apply Hum. }
    apply find_node_lookup in Hfind as [Hj Hid].
    assert (nd ∈ nodes net) as Hnd by (apply list_elem_of_lookup; by exists j).
    destruct (Hun nd Hnd) as [Hl Hac].
    destruct (Hns nd Hnd) as (Hidin & Hps & _).
    destruct (Hms m Hm) as (_ & Hs & Hne).
    same_view.
    assert ((learned_values (receive_message (length (nodes net)) m nd).1 = ∅
             ∧ accept_counts (receive_message (length (nodes net)) m nd).1 = ∅)
            ∧ ∀ x, x ∈ perform_all (nodes net)
                         (receive_message (length (nodes net)) m nd).2 →
                   Message.msg_type x ≠ ACCEPT ∧ Message.msg_type x ≠ ACCEPTED)
      as Hrecv.
    2:{ rewrite receive_message_split in Hrecv. cbn [fst snd] in Hrecv.
        destruct Hrecv as [Hr Hnew].
        apply Hcommit; [intros x; apply list_elem_of_delete_inv | | done].
        by destruct (awaits_clear (length (nodes net)) m nd). }
    split.
    + destruct (roles_kept_apart (length (nodes net)) m nd)
        as (_ & _ & _ & Hlearner & _). destruct Hlearner as [-> ->]; done.
    + unfold receive_message. destruct (Message.msg_type m) eqn:Hty;
        [| |done|done].
      * unfold ReceiveProposeSendPromise.
        case_bool_decide; cbn [snd]; [|by intros x ?%elem_of_nil].
        rewrite perform_all_one. cbn [perform]. unfold send_message.
        case_bool_decide; [|by intros x ?%elem_of_nil].
        intros x ->%list_elem_of_singleton. by split.
      * unfold ReceivePromiseSendAccept.
        case_bool_decide; cbn [snd]; [|by intros x ?%elem_of_nil].
        destruct (note_accepted _ _ _) as [hid hval].
        case_bool_decide as Hq; cbn [snd]; [|by intros x ?%elem_of_nil].
        exfalso. revert Hq. apply small_no_quorum; [done|].
        assert (promises_received nd ∪ {[Message.sender_id m]}
                ⊆ peers (node_ids (nodes net)) (node_id nd)) as Hsub.
        { apply union_subseteq. split; [done|].
          apply singleton_subseteq_l. unfold peers.
          apply elem_of_difference. split.
          - by apply elem_of_list_to_set.
          - rewrite elem_of_singleton. congruence. }
        apply subseteq_size in Hsub.
        pose proof (size_peers _ _ Hnodup Hidin) as Hsize.
        assert (length (node_ids (nodes net)) = length (nodes net)) as Hlen
          by (unfold node_ids; apply length_map).
        lia.
  - destruct (awaiting_clear net !! i) as [nid|]; [|done].
    destruct (find_node nid (nodes net)) as [[j nd]|] eqn:Hfind; [|done].
    apply find_node_lookup in Hfind as [Hj _].
    assert (nd ∈ nodes net) as Hnd by (apply list_elem_of_lookup; by exists j).
    same_view. apply Hcommit; [done | exact (Hun nd Hnd) |].
    cbn [snd]. rewrite perform_all_nil. by intros x ?%elem_of_nil.
Qed.

Lemma run_undecided (evs : list Event) (net : Network) :
  wf net → NoDup (node_ids (nodes net)) →
  (length (nodes net) ≤ 2)%nat →
  undecided net → undecided (run evs net).
Proof.
  revert net. induction evs as [|ev evs IH];
    intros net Hwf Hnodup Hsmall Hun; simpl; [done|].
  apply IH.
  - by apply step_wf.
  - by rewrite step_node_ids.
  - pose proof (step_node_ids ev net) as Hids.
    apply (f_equal length) in Hids. unfold node_ids in Hids.
    rewrite !length_map in Hids. lia.
  - by apply step_undecided.
Qed.

(** X8. Three nodes are the minimum for a majority.  In a network of one or
    two nodes, whatever is proposed and delivered, no ACCEPT or ACCEPTED
    message is ever sent and no node ever counts a sender or learns a
    value. *)
Theorem small_network_never_decides (ids : list string) (evs : list Event) :
  let net := run evs (initial ids) in
  (length (nodes (initial ids)) ≤ 2)%nat →
  Forall (λ m, Message.msg_type m ≠ ACCEPT ∧ Message.msg_type m ≠ ACCEPTED)
    (in_transit net)
  ∧ Forall (λ nd, learned_values nd = ∅ ∧ accept_counts nd = ∅) (nodes net).
Proof.
  intros net Hsmall. apply run_undecided; [| |done|].
  - apply (run_wf ids []).
  - apply initial_NoDup.
  - split; [by apply Forall_nil|].
    eapply Forall_impl; [apply initial_fresh|]. by intros nd [nid ->].
Qed.

Lemma small_network_never_decides_witness :
  let ids := ["node0"; "node1"]%string in
  let evs := [Propose "node0" 100 (Some "alpha"%string); Deliver 0; Deliver 0;
              Propose "node1" 200 (Some "beta"%string); Deliver 0; Deliver 0] in
  Forall (λ nd, learned_values nd = ∅ ∧ accept_counts nd = ∅)
    (nodes (run evs (initial ids))).
Proof.
  intros ids evs.
  refine (proj2 (small_network_never_decides ids evs _)).
  vm_compute. lia.
Defined.

(** ** A majority stands behind every learned value *)

Lemma receive_message_backed (n : nat) (m : Message.t) (nd : PaxosNode) :
  backed n nd → backed n (receive_message n m nd).1.
Proof.
  intros Hb k v Hl.
  destruct (learned_values nd !! k) as [v0|] eqn:Hold.
  - pose proof (receive_message_learned_keeps n m nd k v0 Hold) as Hkeep.
    assert (v = v0) as -> by congruence.
    pose proof (subseteq_size _ _ (senders_of_receive n m nd k v0)) as Hsz.
    specialize (Hb k v0 Hold). lia.
  - destruct (receive_message_learned_new n m nd k v Hold Hl)
      as (Hty & -> & -> & Hq).
    unfold receive_message. rewrite Hty.
    rewrite senders_of_handle_accepted.
    by rewrite decide_True.
Qed.

Lemma step_backed (ev : Event) (net : Network) :
  Forall (backed (length (nodes net))) (nodes net) →
  Forall (backed (length (nodes (step ev net)))) (nodes (step ev net)).
Proof.
  intros Hb. pose proof Hb as Hall. rewrite Forall_forall in Hall.
  assert (∀ transit j nd r,
            nodes net !! j = Some nd →
            backed (length (nodes net)) r.1 →
            Forall (backed (length (nodes (commit net transit j r))))
              (nodes (commit net transit j r))) as Hcommit.
  { intros transit j nd r Hj Hr. unfold commit; cbn [nodes].
    rewrite length_insert. apply Forall_forall.
    intros x [->|Hx]%elem_of_insert_inv; [done | by apply Hall]. }
  destruct ev as [nid now value|i|i]; simpl.
  - destruct (find_node nid (nodes net)) as [[j nd]|] eqn:Hfind; [|done].
    apply find_node_lookup in Hfind as [Hj _].
    apply (Hcommit _ j nd); [done|].
    apply (Hall nd). apply list_elem_of_lookup. by exists j.
  - destruct (in_transit net !! i) as [m|]; [|done].
    destruct (find_node (Message.receiver_id m) (nodes net)) as [[j nd]|]
      eqn:Hfind; [|done].
    apply find_node_lookup in Hfind as [Hj _].
    unfold await; cbn [nodes]. apply (Hcommit _ j nd); [done|].
    assert (backed (length (nodes net)) nd) as Hnd
      by (apply Hall, list_elem_of_lookup; by exists j).
    apply (receive_message_backed _ m) in Hnd.
    rewrite receive_message_split in Hnd. cbn [fst] in Hnd.
    by destruct (awaits_clear (length (nodes net)) m nd).
  - destruct (awaiting_clear net !! i) as [nid|]; [|done].
    destruct (find_node nid (nodes net)) as [[j nd]|] eqn:Hfind; [|done].
    apply find_node_lookup in Hfind as [Hj _].
    unfold finish; cbn [nodes]. apply (Hcommit _ j nd); [done|].
    apply (Hall nd). apply list_elem_of_lookup. by exists j.
Qed.

Lemma run_backed (ids : list string) (evs : list Event) :
  Forall (backed (length (nodes (run evs (initial ids)))))
    (nodes (run evs (initial ids))).
Proof.
  assert (∀ net, Forall (backed (length (nodes net))) (nodes net) →
                 Forall (backed (length (nodes (run evs net))))
                   (nodes (run evs net))) as Hgen.
  { induction evs as [|ev evs IH]; intros net Hnet; simpl; [done|].
    apply IH. by apply step_backed. }
  apply Hgen. eapply Forall_impl; [apply initial_fresh|].
  intros nd [nid ->] k v Hl. simpl in Hl. by rewrite lookup_empty in Hl.
Qed.

(** X10. In every run, a value a node has learned for a proposal id has, in
    that node's counts for the id and the value, a set of senders that is a
    majority of the network, and every sender in it is a registered node. *)
Theorem majority_behind_learned (ids : list string) (evs : list Event)
    (nd : PaxosNode) (k : Z) (v : option string) :
  let net := run evs (initial ids) in
  nd ∈ nodes net →
  learned_values nd !! k = Some v →
  (majority_threshold (length (nodes net))
   ≤ size (senders_of (accept_counts nd) k v))%nat
  ∧ (∀ s, s ∈ senders_of (accept_counts nd) k v → s ∈ ids)
  ∧ (size (senders_of (accept_counts nd) k v) ≤ length (nodes net))%nat.
Proof.
  intros net Hnd Hl.
  pose proof (run_backed ids evs) as Hb. fold net in Hb.
  rewrite Forall_forall in Hb.
  destruct (run_wf ids evs) as [_ Hns]. fold net in Hns.
  rewrite Forall_forall in Hns. destruct (Hns nd Hnd) as (_ & _ & Hac).
  destruct (membership_fixed ids evs) as (_ & _ & Hnodup & Hmem).
  fold net in Hnodup, Hmem.
  split; [by apply (Hb nd Hnd)|]. split.
  - intros s Hs. apply Hmem. apply Hac in Hs.
    by apply elem_of_list_to_set in Hs.
  - pose proof (subseteq_size _ _ (Hac k v)) as Hsz.
    rewrite size_list_to_set in Hsz by done.
    unfold node_ids in Hsz. by rewrite length_map in Hsz.
Qed.

Lemma majority_behind_learned_witness :
  let ids := ["node0"; "node1"; "node2"]%string in
  let evs := Propose "node0" 100 (Some "alpha"%string)
             :: replicate 10 (Deliver 0) in
  let net := run evs (initial ids) in
  let nd := default (new_node "") (nodes net !! 0%nat) in
  (nd ∈ nodes net ∧ learned_values nd !! 100 = Some (Some "alpha"%string))
  ∧ (majority_threshold (length (nodes net))
     ≤ size (senders_of (accept_counts nd) 100 (Some "alpha"%string)))%nat.
Proof.
  intros ids evs net nd.
  assert (nd ∈ nodes net) as Hnd.
  { apply list_elem_of_lookup. exists 0%nat. vm_compute. reflexivity. }
  assert (learned_values nd !! 100 = Some (Some "alpha"%string)) as Hl.
  { vm_compute. reflexivity. }
  split; [exact (conj Hnd Hl)|].
  exact (proj1 (majority_behind_learned ids evs nd 100 _ Hnd Hl)).
Defined.

(** ** The -1 that stands for "nothing accepted" *)

Lemma commit_pairs (net : Network) (transit : list Message.t) (j : nat)
    (r : PaxosNode * list NetCall) :
  pairs_consistent net →
  (∀ x, x ∈ transit → x ∈ in_transit net) →
  (accepted_proposal_id r.1 = -1 → accepted_value r.1 = None) →
  (∀ x, x ∈ perform_all (nodes net) r.2 →
        Message.msg_type x = PROMISE →
        Message.accepted_proposal_id x = None →
        Message.accepted_value x = None) →
  pairs_consistent (commit net transit j r).
Proof.
  intros [Hns Hms] Hsub Hr Hnew. unfold pairs_consistent, commit.
  cbn [nodes in_transit].
  rewrite Forall_forall in Hns. rewrite Forall_forall in Hms.
  split; apply Forall_forall.
  - intros x [->|Hx]%elem_of_insert_inv; [done | by apply Hns].
  - intros x [Hx|Hx]%elem_of_app; [apply Hms; by apply Hsub | by apply Hnew].
Qed.

Lemma step_pairs (ev : Event) (net : Network) :
  ids_valid net → pairs_consistent net → pairs_consistent (step ev net).
Proof.
  intros [_ Hvalid] Hpc. pose proof Hpc as [Hns Hms].
  rewrite Forall_forall in Hvalid. rewrite Forall_forall in Hns.
  destruct ev as [nid now value|i|i]; simpl.
  - destruct (find_node nid (nodes net)) as [[j nd]|] eqn:Hfind; [|done].
    apply find_node_lookup in Hfind as [Hj _].
    apply commit_pairs; [done | done | |].
    + apply (Hns nd). apply list_elem_of_lookup. by exists j.
    + unfold propose; cbn [snd]. rewrite perform_all_one. cbn [perform].
      intros x [r ->]%elem_of_broadcast. done.
  - destruct (in_transit net !! i) as [m|] eqn:Hi; [|done].
    assert (m ∈ in_transit net) as Hm
      by (apply list_elem_of_lookup; by exists i).
    destruct (find_node (Message.receiver_id m) (nodes net)) as [[j nd]|]
      eqn:Hfind.
    2:{ split; [by apply Forall_forall|]. apply Forall_forall.
        intros x Hx%list_elem_of_delete_inv.
        rewrite Forall_forall in Hms. by apply Hms. }
    apply find_node_lookup in Hfind as [Hj _].
    assert (accepted_proposal_id nd = -1 → accepted_value nd = None) as Hnd.
    { apply (Hns nd). apply list_elem_of_lookup. by exists j. }
    destruct (Hvalid m Hm) as [_ Hacc].
    same_view.
    assert ((accepted_proposal_id (receive_message (length (nodes net)) m nd).1
             = -1 →
             accepted_value (receive_message (length (nodes net)) m nd).1
             = None)
            ∧ ∀ x, x ∈ perform_all (nodes net)
                         (receive_message (length (nodes net)) m nd).2 →
                   Message.msg_type x = PROMISE →
                   Message.accepted_proposal_id x = None →
                   Message.accepted_value x = None) as Hrecv.
    2:{ rewrite receive_message_split in Hrecv. cbn [fst snd] in Hrecv.
        destruct Hrecv as [Hr Hnew].
        apply commit_pairs;
          [done | intros x; apply list_elem_of_delete_inv | | done].
        by destruct (awaits_clear (length (nodes net)) m nd). }
    split; unfold receive_message; destruct (Message.msg_type m) eqn:Hty.
    + unfold ReceiveProposeSendPromise. by case_bool_decide.
    + unfold ReceivePromiseSendAccept. case_bool_decide; [|done].
      destruct (note_accepted _ _ _) as [hid hval]. by case_bool_decide.
    + unfold ReceiveAcceptSendAccepted. case_bool_decide; [|done].
      fields. specialize (Hacc eq_refl). lia.
    + done.
    + unfold ReceiveProposeSendPromise.
      case_bool_decide; cbn [snd]; [|by intros x ?%elem_of_nil].
      rewrite perform_all_one. cbn [perform]. unfold send_message.
      case_bool_decide; [|by intros x ?%elem_of_nil].
      intros x ->%list_elem_of_singleton _. fields.
      case_bool_decide as Hne; [done|]. intros _. apply Hnd.
      destruct (decide (accepted_proposal_id nd = -1)); [done|].
      by destruct Hne.
    + unfold ReceivePromiseSendAccept.
      case_bool_decide; cbn [snd]; [|by intros x ?%elem_of_nil].
      destruct (note_accepted _ _ _) as [hid hval].
      case_bool_decide; cbn [snd]; [|by intros x ?%elem_of_nil].
      rewrite perform_all_one. cbn [perform].
      intros x [r ->]%elem_of_broadcast. done.
    + unfold ReceiveAcceptSendAccepted.
      case_bool_decide; cbn [snd]; [|by intros x ?%elem_of_nil].
      rewrite perform_all_one. cbn [perform].
      intros x [r ->]%elem_of_broadcast. done.
    + by intros x ?%elem_of_nil.
  - destruct (awaiting_clear net !! i) as [nid|]; [|done].
    destruct (find_node nid (nodes net)) as [[j nd]|] eqn:Hfind; [|done].
    apply find_node_lookup in Hfind as [Hj _]. same_view.
    apply commit_pairs; [done | done | |].
    + apply (Hns nd). apply list_elem_of_lookup. by exists j.
    + cbn [snd]. rewrite perform_all_nil. by intros x ?%elem_of_nil.
Qed.

Lemma run_pairs (ids : list string) (evs : list Event) :
  pairs_consistent (run evs (initial ids)).
Proof.
  assert (∀ net, ids_valid net → pairs_consistent net →
                 pairs_consistent (run evs net)) as Hgen.
  { induction evs as [|ev evs IH]; intros net Hv Hnet; simpl; [done|].
    apply IH; [by apply step_valid | by apply step_pairs]. }
  apply Hgen; [apply (run_valid ids [])|].
  split; [|by apply Forall_nil].
  eapply Forall_impl; [apply initial_fresh|]. by intros nd [nid ->].
Qed.

(** X11. The -1 of [__init__] is never the id of an accepted proposal.  In
    every run, a PROMISE message in transit has an id above -1; if it
    carries an accepted id, that id is above -1, and if it carries none, it
    carries no accepted value either; a node whose accepted id is -1 holds
    no accepted value, and no promised or accepted id is below -1. *)
Theorem sentinel_never_an_id (ids : list string) (evs : list Event) :
  let net := run evs (initial ids) in
  (∀ m, m ∈ in_transit net → Message.msg_type m = PROMISE →
        Message.proposal_id m > -1
        ∧ (∀ i, Message.accepted_proposal_id m = Some i → i > -1)
        ∧ (Message.accepted_proposal_id m = None →
           Message.accepted_value m = None))
  ∧ (∀ nd, nd ∈ nodes net →
        (accepted_proposal_id nd = -1 → accepted_value nd = None)
        ∧ -1 ≤ accepted_proposal_id nd
        ∧ -1 ≤ promised_proposal_id nd).
Proof.
  intros net. destruct (run_valid ids evs) as [Hvn Hvm].
  destruct (run_pairs ids evs) as [Hpn Hpm]. fold net in Hvn, Hvm, Hpn, Hpm.
  rewrite Forall_forall in Hvn. rewrite Forall_forall in Hvm.
  rewrite Forall_forall in Hpn. rewrite Forall_forall in Hpm.
  split.
  - intros m Hm Hty. destruct (Hvm m Hm) as [Hprom _].
    destruct (Hprom Hty) as [Hpid Hi]. split; [lia|]. split.
    + intros i Hsome. specialize (Hi i Hsome). lia.
    + by apply Hpm.
  - intros nd Hnd. destruct (Hvn nd Hnd) as [Hp Ha].
    split; [by apply Hpn|]. done.
Qed.

(** ** Only proposed values are learned *)

Lemma broadcast_values (V : string → Prop) (ns : list PaxosNode)
    (a : Message.t) (ex : option string) :
  msg_values V a → Forall (msg_values V) (broadcast ns a ex).
Proof.
  intros Ha. apply Forall_forall. intros x [r ->]%elem_of_broadcast. done.
Qed.

Lemma node_records_values (V : string → Prop) (ns : list PaxosNode)
    (m : Message.t) (nd : PaxosNode) :
  node_values V nd → msg_values V m →
  ∀ k s, node_records k (Some s) (receive_message (length ns) m nd).1 → V s.
Proof.
  intros (_ & _ & _ & _ & Hrec) [Hval _] k s Hnew.
  destruct (receive_message_ok ns m nd) as (_ & HF & _).
  destruct (HF k (Some s) Hnew) as [Hold|(_ & _ & Hv)].
  - by apply (Hrec k).
  - by apply Hval.
Qed.

Lemma receive_message_values (V : string → Prop) (ns : list PaxosNode)
    (m : Message.t) (nd : PaxosNode) :
  node_values V nd → msg_values V m →
  node_values V (receive_message (length ns) m nd).1
  ∧ Forall (msg_values V)
      (perform_all ns (receive_message (length ns) m nd).2).
Proof.
  intros Hnd Hm.
  pose proof (node_records_values V ns m nd Hnd Hm) as Hrecs.
  destruct Hnd as (Hcur & Hhigh & Hacc & Hlearn & Hrec).
  destruct Hm as [Hval Haval].
  assert (∀ k s, learned_values (receive_message (length ns) m nd).1 !! k
                 = Some (Some s) → V s) as Hlearned.
  { intros k s Hl. apply (Hrecs k). by right. }
  revert Hrecs Hlearned.
  unfold receive_message. destruct (Message.msg_type m) eqn:Hty;
    intros Hrecs Hlearned.
  - unfold ReceiveProposeSendPromise in *.
    case_bool_decide; cbn [fst snd] in *; [|by rewrite perform_all_nil].
    split; [done|]. rewrite perform_all_one. cbn [perform].
    unfold send_message. case_bool_decide; [|done].
    apply Forall_singleton. split; fields; [done | apply Hacc].
  - unfold ReceivePromiseSendAccept in *.
    case_bool_decide; cbn [fst snd] in *; [|by rewrite perform_all_nil].
    destruct (note_accepted m (highest_accepted_id nd)
                (highest_accepted_value nd)) as [hid hval] eqn:Hnote.
    assert (∀ s, hval = Some s → V s) as Hhval.
    { intros s ->. unfold note_accepted in Hnote.
      destruct (Message.accepted_proposal_id m);
        destruct (Message.accepted_value m) eqn:Hav;
        try case_bool_decide; simplify_eq; eauto. }
    case_bool_decide; cbn [fst snd] in *.
    + split; [done|]. rewrite perform_all_one. cbn [perform].
      apply broadcast_values. split; fields; [|done].
      intros s. unfold value_to_accept. destruct hval as [s'|].
      * intros ?. simplify_eq. by apply Hhval.
      * apply Hcur.
    + rewrite perform_all_nil. done.
  - unfold ReceiveAcceptSendAccepted in *.
    case_bool_decide; cbn [fst snd] in *; [|by rewrite perform_all_nil].
    split; [done|]. rewrite perform_all_one. cbn [perform].
    apply broadcast_values. by split.
  - split; [|by unfold handle_accepted; cbn [snd]; rewrite perform_all_nil].
    done.
Qed.

Lemma propose_values (V : string → Prop) (ns : list PaxosNode) (now : Z)
    (value : option string) (nd : PaxosNode) :
  node_values V nd → (∀ s, value = Some s → V s) →
  node_values V (propose now value nd).1
  ∧ Forall (msg_values V) (perform_all ns (propose now value nd).2).
Proof.
  intros (Hcur & Hhigh & Hacc & Hlearn & Hrec) Hv. split; [done|].
  unfold propose; cbn [snd]. rewrite perform_all_one. cbn [perform].
  apply broadcast_values. by split.
Qed.

Lemma step_values (V : string → Prop) (ev : Event) (net : Network) :
  values_from V net →
  (∀ nid now s, ev = Propose nid now (Some s) →
                nid ∈ node_ids (nodes net) → V s) →
  values_from V (step ev net).
Proof.
  intros Hvf Hev. pose proof Hvf as [Hns Hms].
  rewrite Forall_forall in Hns. rewrite Forall_forall in Hms.
  assert (∀ transit j r,
            (∀ x, x ∈ transit → x ∈ in_transit net) →
            node_values V r.1
            ∧ Forall (msg_values V) (perform_all (nodes net) r.2) →
            values_from V (commit net transit j r)) as Hcommit.
  { intros transit j r Hsub [Hr Hnew]. unfold values_from, commit.
    cbn [nodes in_transit]. split.
    - apply Forall_forall.
      intros x [->|Hx]%elem_of_insert_inv; [done | by apply Hns].
    - apply Forall_app. split; [|done]. apply Forall_forall.
      intros x Hx. apply Hms. by apply Hsub. }
  destruct ev as [nid now value|i|i]; simpl.
  - destruct (find_node nid (nodes net)) as [[j nd]|] eqn:Hfind; [|done].
    apply find_node_lookup in Hfind as [Hj Hid].
    assert (nd ∈ nodes net) as Hnd by (apply list_elem_of_lookup; by exists j).
    apply Hcommit; [done|]. apply propose_values; [by apply Hns|].
    intros s ->. apply (Hev nid now s eq_refl).
    rewrite <- Hid. unfold node_ids. apply list_elem_of_fmap. by exists nd.
  - destruct (in_transit net !! i) as [m|] eqn:Hi; [|done].
    assert (m ∈ in_transit net) as Hm
      by (apply list_elem_of_lookup; by exists i).
    destruct (find_node (Message.receiver_id m) (nodes net)) as [[j nd]|]
      eqn:Hfind.
    + apply find_node_lookup in Hfind as [Hj _]. same_view.
      apply Hcommit; [intros x; apply list_elem_of_delete_inv|].
      apply begin_message_inv; [by intros x|].
      apply receive_message_values; [|by apply Hms].
      apply Hns. apply list_elem_of_lookup. by exists j.
    + split; [by apply Forall_forall|]. apply Forall_forall.
      intros x Hx%list_elem_of_delete_inv. by apply Hms.
  - destruct (awaiting_clear net !! i) as [nid|]; [|done].
    destruct (find_node nid (nodes net)) as [[j nd]|] eqn:Hfind; [|done].
    apply find_node_lookup in Hfind as [Hj _]. same_view.
    apply Hcommit; [done|]. cbn [fst snd]. rewrite perform_all_nil.
    split; [|done]. apply (Hns nd). apply list_elem_of_lookup. by exists j.
Qed.

Lemma run_values (V : string → Prop) (evs : list Event) (net : Network) :
  values_from V net →
  (∀ nid now s, Propose nid now (Some s) ∈ evs →
                nid ∈ node_ids (nodes net) → V s) →
  values_from V (run evs net).
Proof.
  revert net. induction evs as [|ev evs IH]; intros net Hvf Hev; simpl;
    [done|].
  apply IH.
  - apply step_values; [done|]. intros nid now s -> Hin.
    apply (Hev nid now s); [by left | done].
  - intros nid now s Hin Hid. rewrite step_node_ids in Hid.
    apply (Hev nid now s); [by right | done].
Qed.

(** X12. Only proposed values are decided.  In every run, a value a node has
    learned, a value a node has accepted, and the value of a message in
    transit, when it is not [None], was passed to [propose] on a registered
    node earlier in the run. *)
Theorem learned_values_were_proposed (ids : list string) (evs : list Event) :
  let net := run evs (initial ids) in
  (∀ nd k s, nd ∈ nodes net →
      learned_values nd !! k = Some (Some s) → proposed_in evs ids s)
  ∧ (∀ nd s, nd ∈ nodes net →
      accepted_value nd = Some s → proposed_in evs ids s)
  ∧ (∀ m s, m ∈ in_transit net →
      Message.value m = Some s → proposed_in evs ids s).
Proof.
  intros net.
  assert (values_from (proposed_in evs ids) net) as [Hns Hms].
  { apply run_values.
    - split; [|by apply Forall_nil].
      eapply Forall_impl; [apply initial_fresh|].
      intros nd [nid ->]. unfold node_values, new_node; fields.
      split; [done|]. split; [done|]. split; [done|]. split.
      + intros k s Hl. by rewrite lookup_empty in Hl.
      + intros k s [(inner & Hk & _)|Hl]; fields;
          by rewrite lookup_empty in *.
    - intros nid now s Hin Hid. exists nid, now. split; [done|].
      by apply initial_ids. }
  rewrite Forall_forall in Hns. rewrite Forall_forall in Hms.
  split; [|split].
  - intros nd k s Hnd Hl. destruct (Hns nd Hnd) as (_ & _ & _ & Hlearn & _).
    by apply (Hlearn k).
  - intros nd s Hnd Ha. destruct (Hns nd Hnd) as (_ & _ & Hacc & _).
    by apply Hacc.
  - intros m s Hm Hv. destruct (Hms m Hm) as [Hval _]. by apply Hval.
Qed.

(** ** The controller's pending proposals *)

Lemma sim_call_pending (c : SimCall) (sim : PaxosSimulation) :
  Forall (λ p, p.1 ∈ node_ids (nodes (network sim))) (pending_proposals sim) →
  Forall (λ p, p.1 ∈ node_ids (nodes (network (sim_call c sim))))
    (pending_proposals (sim_call c sim)).
Proof.
  intros Hall. destruct c as [nid|nid value]; simpl.
  - unfold simulation_create_node; simpl.
    eapply Forall_impl; [exact Hall|]. intros p Hp. unfold create_node.
    apply add_node_ids_back. by right.
  - unfold add_proposal. case_bool_decide; [|done]. simpl.
    apply Forall_app. split; [done|]. by apply Forall_singleton.
Qed.

Lemma sim_call_NoDup (c : SimCall) (sim : PaxosSimulation) :
  NoDup (node_ids (nodes (network sim))) →
  NoDup (node_ids (nodes (network (sim_call c sim)))).
Proof.
  intros Hnd. destruct c as [nid|nid value]; simpl.
  - by apply add_node_NoDup.
  - unfold add_proposal. by case_bool_decide.
Qed.

(** X13. [add_proposal] keeps a proposal only for a registered node: for an
    unknown id it changes nothing, for a known one it appends the pair and
    leaves the network alone.  So after any sequence of [create_node] and
    [add_proposal] calls on a new simulation, every pending proposal names a
    node that [run_simulation] finds in the network, and the ids of the
    nodes are pairwise different. *)
Theorem pending_proposals_registered (cs : list SimCall) :
  let sim := sim_calls cs new_simulation in
  Forall (λ p, ∃ j nd, find_node p.1 (nodes (network sim)) = Some (j, nd)
                       ∧ node_id nd = p.1)
    (pending_proposals sim)
  ∧ NoDup (node_ids (nodes (network sim)))
  ∧ (∀ nid value s,
      nid ∉ node_ids (nodes (network s)) → add_proposal nid value s = s)
  ∧ (∀ nid value s,
      nid ∈ node_ids (nodes (network s)) →
      pending_proposals (add_proposal nid value s)
      = pending_proposals s ++ [(nid, value)]
      ∧ network (add_proposal nid value s) = network s).
Proof.
  intros sim.
  assert (∀ s0,
            Forall (λ p, p.1 ∈ node_ids (nodes (network s0)))
              (pending_proposals s0)
            ∧ NoDup (node_ids (nodes (network s0))) →
            Forall (λ p, p.1 ∈ node_ids (nodes (network (sim_calls cs s0))))
              (pending_proposals (sim_calls cs s0))
            ∧ NoDup (node_ids (nodes (network (sim_calls cs s0))))) as Hgen.
  { induction cs as [|c cs IH]; intros s0 [Hp Hn]; simpl; [done|].
    apply IH. split; [by apply sim_call_pending | by apply sim_call_NoDup]. }
  destruct (Hgen new_simulation) as [Hp Hn].
  { split; [by apply Forall_nil | apply NoDup_nil_2]. }
  fold sim in Hp, Hn. split; [|split; [done|split]].
  - eapply Forall_impl; [exact Hp|]. intros p Hin.
    apply list_elem_of_fmap in Hin as (nd0 & Hid0 & Hnd0).
    destruct (list_find_elem_of (λ nd, node_id nd = p.1)
                (nodes (network sim)) nd0 Hnd0 (eq_sym Hid0))
      as [[j nd] Hfind].
    exists j, nd. split; [done|].
    by apply find_node_lookup in Hfind as [_ Hid].
  - intros nid value s Hnot. unfold add_proposal.
    by rewrite bool_decide_eq_false_2.
  - intros nid value s Hin. unfold add_proposal.
    by rewrite bool_decide_eq_true_2.
Qed.

Lemma learned_values_were_proposed_witness :
  let ids := ["node0"; "node1"; "node2"]%string in
  let evs := Propose "node0" 100 (Some "alpha"%string)
             :: replicate 10 (Deliver 0) in
  let net := run evs (initial ids) in
  let nd := default (new_node "") (nodes net !! 1%nat) in
  (nd ∈ nodes net ∧ learned_values nd !! 100 = Some (Some "alpha"%string))
  ∧ proposed_in evs ids "alpha".
Proof.
  intros ids evs net nd.
  assert (nd ∈ nodes net) as Hnd.
  { apply list_elem_of_lookup. exists 1%nat. vm_compute. reflexivity. }
  assert (learned_values nd !! 100 = Some (Some "alpha"%string)) as Hl.
  { vm_compute. reflexivity. }
  split; [exact (conj Hnd Hl)|].
  exact (proj1 (learned_values_were_proposed ids evs) nd 100 _ Hnd Hl).
Defined.

(** ** A promise binds *)

(** X14. Once a PREPARE message for an id has reached an acceptor, whether
    it was answered or not, and whatever is delivered afterwards, the
    acceptor answers no PREPARE for that id or a lower one and accepts no
    ACCEPT for a lower id: such a message leaves the node as it is and sends
    nothing.  So an acceptor promises an id at most once. *)
Theorem promise_binds (n : nat) (m : Message.t) (ms : list Message.t)
    (nd : PaxosNode) :
  Message.msg_type m = PREPARE →
  let nd' := (deliver_all n (m :: ms) nd).1 in
  Message.proposal_id m ≤ promised_proposal_id nd'
  ∧ (∀ m', Message.msg_type m' = PREPARE →
           Message.proposal_id m' ≤ Message.proposal_id m →
           receive_message n m' nd' = (nd', []))
  ∧ (∀ m', Message.msg_type m' = ACCEPT →
           Message.proposal_id m' < Message.proposal_id m →
           receive_message n m' nd' = (nd', [])).
Proof.
  intros Hty nd'.
  assert (Message.proposal_id m ≤ promised_proposal_id nd') as Hle.
  { subst nd'. change (m :: ms) with ([m] ++ ms).
    rewrite deliver_all_app, deliver_all_one.
    etrans; [|apply deliver_all_promised].
    unfold receive_message. rewrite Hty. unfold ReceiveProposeSendPromise.
    case_bool_decide; fields; lia. }
  split; [done|]. split.
  - intros m' Hty' Hlow. unfold receive_message. rewrite Hty'.
    unfold ReceiveProposeSendPromise.
    rewrite bool_decide_eq_false_2; [done | lia].
  - intros m' Hty' Hlow. unfold receive_message. rewrite Hty'.
    unfold ReceiveAcceptSendAccepted.
    rewrite bool_decide_eq_false_2; [done | lia].
Qed.

Lemma promise_binds_witness :
  let prepare i := Message.mk PREPARE i "node0" "node1" None None None in
  let accept := Message.mk ACCEPT 6 "node0" "node1" (Some "v"%string)
                  None None in
  let nd' := (deliver_all 3 [prepare 7; prepare 3] (new_node "node1")).1 in
  receive_message 3 (prepare 7) nd' = (nd', [])
  ∧ receive_message 3 accept nd' = (nd', []).
Proof.
  intros prepare accept nd'.
  destruct (promise_binds 3 (prepare 7) [prepare 3] (new_node "node1")
              eq_refl) as (_ & Hprep & Hacc).
  split.
  - apply (Hprep (prepare 7)); [reflexivity | simpl; lia].
  - apply (Hacc accept); [reflexivity | simpl; lia].
Defined.
